(** * Candidate discovery and paginated backend query of the metadata syncer

    A shallow embedding of [pkg/syncer/util.go] (package [syncer] of the
    vSphere CSI driver) together with the properties its specification
    states about it.

    Conventions of the embedding:
    - Go strings are [string]; a Go [map[string]string] is a
      [gmap string string] (a nil map and an empty map both read as [∅]);
      reading an absent key yields the zero value [""], see [map_get].
    - A Go slice is a [list]; the nil slice is [[]].
    - A Go [error] is the text of its message; a nil error is [None].
    - A call of an interface of another package (listers, feature switch,
      migration service, volume manager) is a function taken as input; where
      the callee is a remote service with its own state, that state is
      threaded explicitly.
    - [int64] cursor fields are [Z]; the code never computes with them
      outside of a log line. *)

From Stdlib Require Import ZArith Lia.
From stdpp Require Import base option list strings gmap.

Local Open Scope string_scope.
Local Open Scope list_scope.
Local Open Scope nat_scope.

(** ** Go-level preliminaries *)

Definition error := string.

(** The outcome of a client call that, by contract, returns either a
    non-nil object and a nil error, or an error. *)
Inductive result (A : Type) : Type :=
| Ok (a : A)
| Err (e : error).
Arguments Ok {A} a.
Arguments Err {A} e.

(** [m[k]] on a Go map: the zero value when the key is absent. *)
Definition map_get (m : gmap string string) (k : string) : string :=
  default "" (m !! k).

(** [v, found := m[k]] *)
Definition map_get2 (m : gmap string string) (k : string) : string * bool :=
  match m !! k with
  | Some v => (v, true)
  | None => ("", false)
  end.

(** ** Logging

    [logger.GetLogger(ctx)] returns a leveled logger.  A log line is kept
    as its level and its format string; the formatted arguments are not
    modelled.  [IsValidVolume], [fullSyncGetInlineMigratedVolumesInfo] and
    [fullSyncGetQueryResults] return the lines they log; the debug tracing
    of the validity predicates and of the two volume discoveries has no
    bearing on what they return and is left out. *)
Module logger.
Inductive Level := Debug | Info | Warn | Error.

Record Entry := { level : Level; format : string }.

Definition Debugf (f : string) : Entry := {| level := Debug; format := f |}.
Definition Infof (f : string) : Entry := {| level := Info; format := f |}.
Definition Warnf (f : string) : Entry := {| level := Warn; format := f |}.
Definition Errorf (f : string) : Entry := {| level := Error; format := f |}.
End logger.

(** ** Kubernetes API objects ([k8s.io/api/core/v1], [apimachinery]) *)

Module metav1.
Record ObjectMeta := {
  Name : string;
  Namespace : string;
  Annotations : gmap string string;
}.
End metav1.

Module v1.
(** [type PersistentVolumePhase string] *)
Definition PersistentVolumePhase := string.
Definition VolumePending : PersistentVolumePhase := "Pending".
Definition VolumeAvailable : PersistentVolumePhase := "Available".
Definition VolumeBound : PersistentVolumePhase := "Bound".
Definition VolumeReleased : PersistentVolumePhase := "Released".
Definition VolumeFailed : PersistentVolumePhase := "Failed".

Record CSIPersistentVolumeSource := {
  Driver : string;
  VolumeHandle : string;
}.

Record VsphereVirtualDiskVolumeSource := {
  VolumePath : string;
  StoragePolicyName : string;
}.

(** [pv.Spec.CSI] and [pv.Spec.VsphereVolume] are pointers: [None] is nil. *)
Record PersistentVolume := {
  pv_ObjectMeta : metav1.ObjectMeta;
  pv_Spec_CSI : option CSIPersistentVolumeSource;
  pv_Spec_VsphereVolume : option VsphereVirtualDiskVolumeSource;
  pv_Status_Phase : PersistentVolumePhase;
}.

(** [pvc.Spec.StorageClassName] is a [*string]. *)
Record PersistentVolumeClaim := {
  pvc_ObjectMeta : metav1.ObjectMeta;
  pvc_Spec_StorageClassName : option string;
  pvc_Spec_VolumeName : string;
}.

Record PersistentVolumeClaimVolumeSource := {
  ClaimName : string;
}.

(** A volume of a pod spec; both volume sources are pointers. *)
Record Volume := {
  vol_Name : string;
  vol_VsphereVolume : option VsphereVirtualDiskVolumeSource;
  vol_PersistentVolumeClaim : option PersistentVolumeClaimVolumeSource;
}.

Record Pod := {
  pod_ObjectMeta : metav1.ObjectMeta;
  pod_Spec_Volumes : list Volume;
}.
End v1.

(** ** The migration service ([pkg/apis/migration])

    [volumeMigrationService] is a package-level variable of interface type.
    [GetVolumeID] may register a volume on demand, so the service carries a
    state [S] that every call may change. *)
Module migration.
Record VolumeSpec := {
  VolumePath : string;
  StoragePolicyName : string;
}.

Class VolumeMigrationService (S : Type) :=
  GetVolumeID : S → VolumeSpec → S * result string.
End migration.

(** ** The backend catalog ([govmomi/cns/types], [cns-lib/volume]) *)
Module cnstypes.
Record CnsVolumeId := { Id : string }.

Record CnsCursor := {
  Offset : Z;
  Limit : Z;
  TotalRecords : Z;
}.

(** Of a volume record only its identity is kept; the code never looks
    inside a record. *)
Record CnsVolume := {
  VolumeId : CnsVolumeId;
  Name : string;
}.

Record CnsQueryResult := {
  Volumes : list CnsVolume;
  Cursor : CnsCursor;
}.

(** [Cursor] of a filter is a [*CnsCursor]. *)
Record CnsQueryFilter := {
  VolumeIds : list CnsVolumeId;
  ContainerClusterIds : list string;
  filter_Cursor : option CnsCursor;
}.
End cnstypes.

Module volumes.
(** [QueryVolume] returns a [*CnsQueryResult] and an [error]; either may
    be nil.  [B] is the state of the backend, which a call may change. *)
Definition Response : Type := option cnstypes.CnsQueryResult * option error.

Class Manager (B : Type) :=
  QueryVolume : B → cnstypes.CnsQueryFilter → B * Response.
End volumes.

(** ** Constants of sibling packages

    [csitypes.Name] (also imported as [types.Name]), the annotation keys
    and plugin names of package [common], the name of the migration
    feature switch and the page size [queryVolumeLimit] are declared
    outside [util.go]; every definition below takes them as a parameter. *)
Class Constants := {
  csitypes_Name : string;
  common_AnnMigratedTo : string;
  common_AnnStorageProvisioner : string;
  common_AnnDynamicallyProvisioned : string;
  common_InTreePluginName : string;
  common_CSIMigration : string;
  queryVolumeLimit : Z;
}.

(** PVC annotation key to specify storage class from which PV should be
    provisioned. *)
Definition scNameAnnotationKey : string :=
  "volume.beta.kubernetes.io/storage-class".

(** ** The informer handle

    [metadataSyncInformer] is declared in another file of the package; the
    fields are the calls [util.go] makes on it.  The listers read a local
    cache; the feature switch reads an in-memory snapshot, taken as fixed
    for the duration of one call. *)
Record metadataSyncInformer := {
  pvLister_List : result (list v1.PersistentVolume);
  pvLister_Get : string → result v1.PersistentVolume;
  pvcLister_Get : string → string → result v1.PersistentVolumeClaim;
  podLister_List : result (list v1.Pod);
  coCommonInterface_IsFSSEnabled : string → bool;
}.

Section syncer.
Context `{!Constants}.

(** *** Validity predicates *)

(** isValidvSphereVolumeClaim returns true if the given PVC metadata of a
    vSphere Volume (in-tree volume) has migrated-to annotation on the PVC
    or if the PVC was provisioned by CSI driver using in-tree storage
    class. *)
Definition isValidvSphereVolumeClaim (pvcMetadata : metav1.ObjectMeta) : bool :=
  let '(annotation, annMigratedToFound) :=
    map_get2 (metav1.Annotations pvcMetadata) common_AnnMigratedTo in
  if annMigratedToFound then
    if String.eqb annotation csitypes_Name
       && String.eqb (map_get (metav1.Annotations pvcMetadata) common_AnnStorageProvisioner)
                     common_InTreePluginName
    then true
    else false
  else
    if String.eqb (map_get (metav1.Annotations pvcMetadata) common_AnnStorageProvisioner)
                  csitypes_Name
    then true
    else false.

(** isValidvSphereVolume returns true if the given PV metadata of a vSphere
    Volume (in-tree volume) has migrated-to annotation on the PV or if the
    PV was provisioned by CSI driver using in-tree storage class. *)
Definition isValidvSphereVolume (pvMetadata : metav1.ObjectMeta) : bool :=
  let '(annotation, annMigratedToFound) :=
    map_get2 (metav1.Annotations pvMetadata) common_AnnMigratedTo in
  if annMigratedToFound then
    if String.eqb annotation csitypes_Name
       && String.eqb (map_get (metav1.Annotations pvMetadata) common_AnnDynamicallyProvisioned)
                     common_InTreePluginName
    then true
    else false
  else
    if String.eqb (map_get (metav1.Annotations pvMetadata) common_AnnDynamicallyProvisioned)
                  csitypes_Name
    then true
    else false.

(** GetSCNameFromPVC gets name of the storage class from provided PVC.
    The Go condition [scName == nil || *scName == ""] selects the
    annotation branch; otherwise [*scName] is returned. *)
Definition GetSCNameFromPVC (pvc : v1.PersistentVolumeClaim) : string * option error :=
  let fromAnnotation :=
    let scNameFromAnnotation :=
      map_get (metav1.Annotations (v1.pvc_ObjectMeta pvc)) scNameAnnotationKey in
    if String.eqb scNameFromAnnotation "" then
      ("", Some "storage class name not specified in PVC")
    else
      (scNameFromAnnotation, None) in
  match v1.pvc_Spec_StorageClassName pvc with
  | None => fromAnnotation
  | Some scName => if String.eqb scName "" then fromAnnotation else (scName, None)
  end.

(** *** Discovery of persistent volumes *)

(** [pv.Spec.CSI != nil && pv.Spec.CSI.Driver == csitypes.Name] *)
Definition hasCSIDriver (pv : v1.PersistentVolume) : bool :=
  match v1.pv_Spec_CSI pv with
  | Some csi => String.eqb (v1.Driver csi) csitypes_Name
  | None => false
  end.

(** [pv.Spec.VsphereVolume != nil] *)
Definition hasVsphereVolume (pv : v1.PersistentVolume) : bool :=
  match v1.pv_Spec_VsphereVolume pv with Some _ => true | None => false end.

(** getPVsInBoundAvailableOrReleased return PVs in Bound, Available or
    Released state.  The body of the [for] loop is the folded function;
    [append] is [++ [pv]]. *)
Definition getPVsInBoundAvailableOrReleased (metadataSyncer : metadataSyncInformer)
  : list v1.PersistentVolume * option error :=
  match pvLister_List metadataSyncer with
  | Err err => ([], Some err)
  | Ok allPVs =>
    (foldl (λ pvsInDesiredState pv,
        if hasCSIDriver pv
           || (coCommonInterface_IsFSSEnabled metadataSyncer common_CSIMigration
               && hasVsphereVolume pv
               && isValidvSphereVolume (v1.pv_ObjectMeta pv))
        then
          if String.eqb (v1.pv_Status_Phase pv) v1.VolumeBound
             || String.eqb (v1.pv_Status_Phase pv) v1.VolumeAvailable
             || String.eqb (v1.pv_Status_Phase pv) v1.VolumeReleased
          then pvsInDesiredState ++ [pv]
          else pvsInDesiredState
        else pvsInDesiredState)
      [] allPVs, None)
  end.

(** getBoundPVs is a helper function for VolumeHealthStatus feature and
    returns PVs in Bound state. *)
Definition getBoundPVs (metadataSyncer : metadataSyncInformer)
  : list v1.PersistentVolume * option error :=
  match pvLister_List metadataSyncer with
  | Err err => ([], Some err)
  | Ok allPVs =>
    (foldl (λ boundPVs pv,
        if hasCSIDriver pv then
          if String.eqb (v1.pv_Status_Phase pv) v1.VolumeBound
          then boundPVs ++ [pv]
          else boundPVs
        else boundPVs)
      [] allPVs, None)
  end.

(** *** Validity of a volume mounted by a pod *)

(** IsValidVolume determines if the given volume mounted by a POD is a
    valid vsphere volume.  Returns the pv and pvc object if true.

    The result is [None] when the Go code panics: the first statement
    dereferences [volume.PersistentVolumeClaim], which is nil for a
    volume that is not backed by a claim.  Otherwise it is the returned
    triple together with the lines logged. *)
Definition IsValidVolume (volume : v1.Volume) (pod : v1.Pod)
    (metadataSyncer : metadataSyncInformer)
  : option ((bool * option v1.PersistentVolume * option v1.PersistentVolumeClaim)
            * list logger.Entry) :=
  match v1.vol_PersistentVolumeClaim volume with
  | None => None
  | Some claim =>
    let pvcName := v1.ClaimName claim in
    match pvcLister_Get metadataSyncer (metav1.Namespace (v1.pod_ObjectMeta pod)) pvcName with
    | Err err =>
      Some ((false, None, None),
            [logger.Errorf "Error getting Persistent Volume Claim for volume %s with err: %v"])
    | Ok pvc =>
      match pvLister_Get metadataSyncer (v1.pvc_Spec_VolumeName pvc) with
      | Err err =>
        Some ((false, None, None),
              [logger.Errorf "Error getting Persistent Volume for PVC %s in volume %s with err: %v"])
      | Ok pv =>
        if negb (hasCSIDriver pv)
           && (coCommonInterface_IsFSSEnabled metadataSyncer common_CSIMigration
               && negb (hasVsphereVolume pv))
        then
          Some ((false, None, None),
                [logger.Debugf "Pod %s does not have a valid vSphereVolume. Ignoring the pod update"])
        else if negb (coCommonInterface_IsFSSEnabled metadataSyncer common_CSIMigration)
                && hasVsphereVolume pv
        then
          Some ((false, None, None),
                [logger.Warnf "%s feature switch is disabled. Cannot update vSphere volume metadata %s for the pod %s"])
        else
          Some ((true, Some pv, Some pvc), [])
      end
    end
  end.

(** *** Inline volumes of pods *)

Section inline_volumes.
Context {S : Type} `{!migration.VolumeMigrationService S}.

(** State of the two nested loops: the migration service, the map
    [inlineVolumes] built so far and the lines logged so far. *)
Definition InlineScan : Type := S * gmap string string * list logger.Entry.

(** The line logged when a reference cannot be resolved. *)
Definition resolutionWarning : logger.Entry :=
  logger.Warnf "FullSync: Failed to get VolumeID from volumeMigrationService for volumePath: %s with error %+v".

(** Body of the inner loop, [for _, volume := range pod.Spec.Volumes]. *)
Definition scanVolume (migrationFeatureState : bool)
    (st : InlineScan) (volume : v1.Volume) : InlineScan :=
  let '(svc, inlineVolumes, log) := st in
  match migrationFeatureState, v1.vol_VsphereVolume volume with
  | true, Some vsphereVolume =>
    let '(svc', r) :=
      migration.GetVolumeID svc
        {| migration.VolumePath := v1.VolumePath vsphereVolume;
           migration.StoragePolicyName := v1.StoragePolicyName vsphereVolume |} in
    match r with
    | Err err =>
      (svc', inlineVolumes, log ++ [resolutionWarning])
    | Ok volumeHandle =>
      (svc', <[volumeHandle := v1.VolumePath vsphereVolume]> inlineVolumes, log)
    end
  | _, _ => st
  end.

(** Body of the outer loop, [for _, pod := range allPods]. *)
Definition scanPod (migrationFeatureState : bool)
    (st : InlineScan) (pod : v1.Pod) : InlineScan :=
  foldl (scanVolume migrationFeatureState) st (v1.pod_Spec_Volumes pod).

(** fullSyncGetInlineMigratedVolumesInfo is a helper function for
    retrieving inline PV information from Pods.  Returns the state of
    the migration service after the pass, the returned pair and the
    lines logged. *)
Definition fullSyncGetInlineMigratedVolumesInfo
    (metadataSyncer : metadataSyncInformer) (migrationFeatureState : bool)
    (volumeMigrationService : S)
  : S * (gmap string string * option error) * list logger.Entry :=
  match podLister_List metadataSyncer with
  | Err err =>
    (volumeMigrationService, (∅, Some err),
     [logger.Errorf "FullSync: failed to fetch the list of pods with err: %+v"])
  | Ok allPods =>
    let '(svc, inlineVolumes, log) :=
      foldl (scanPod migrationFeatureState) (volumeMigrationService, ∅, []) allPods in
    (svc, (inlineVolumes, None), log)
  end.
(** **** The resolutions of one pass *)

(** The inline legacy volume references of all pods, in the order in which
    the two loops visit them. *)
Definition inlineReferences (allPods : list v1.Pod)
  : list v1.VsphereVirtualDiskVolumeSource :=
  omap v1.vol_VsphereVolume (concat (v1.pod_Spec_Volumes <$> allPods)).

(** The answers of the migration service when the references are submitted
    one after the other, starting in state [svc]. *)
Fixpoint resolutions (svc : S) (refs : list v1.VsphereVirtualDiskVolumeSource)
  : list (v1.VsphereVirtualDiskVolumeSource * result string) :=
  match refs with
  | [] => []
  | ref :: refs' =>
    let '(svc', r) :=
      migration.GetVolumeID svc
        {| migration.VolumePath := v1.VolumePath ref;
           migration.StoragePolicyName := v1.StoragePolicyName ref |} in
    (ref, r) :: resolutions svc' refs'
  end.

(** The state of the service after these submissions. *)
Fixpoint serviceAfter (svc : S) (refs : list v1.VsphereVirtualDiskVolumeSource) : S :=
  match refs with
  | [] => svc
  | ref :: refs' =>
    serviceAfter
      (migration.GetVolumeID svc
         {| migration.VolumePath := v1.VolumePath ref;
            migration.StoragePolicyName := v1.StoragePolicyName ref |}).1
      refs'
  end.

(** The map of canonical volume ID to legacy path that a sequence of
    answers amounts to: every success is recorded, later ones over earlier
    ones; failures leave no entry. *)
Definition recorded (answers : list (v1.VsphereVirtualDiskVolumeSource * result string))
    (inlineVolumes : gmap string string) : gmap string string :=
  foldl (λ m a, match a.2 with
                | Ok volumeHandle => <[volumeHandle := v1.VolumePath a.1]> m
                | Err _ => m
                end) inlineVolumes answers.

Definition isFailure (a : v1.VsphereVirtualDiskVolumeSource * result string) : bool :=
  match a.2 with Err _ => true | Ok _ => false end.

End inline_volumes.

(** *** Paginated query of the backend *)

Section query.
Context {B : Type} `{!volumes.Manager B}.

(** The variables live across iterations of the [for] loop.  [calls] is
    a ghost field: the filters passed to [QueryVolume] so far, oldest
    first. *)
Record QueryLoop := {
  volumeManager : B;
  queryFilter : cnstypes.CnsQueryFilter;
  allQueryResults : list cnstypes.CnsQueryResult;
  calls : list cnstypes.CnsQueryFilter;
  log : list logger.Entry;
}.

(** One iteration either goes round again or leaves the function with
    the pair it returns. *)
Inductive Iteration :=
| Next (st : QueryLoop)
| Return (st : QueryLoop) (ret : list cnstypes.CnsQueryResult * option error).

Definition loopBody (st : QueryLoop) : Iteration :=
  let log1 := log st ++ [logger.Debugf "Query volumes with offset: %v and limit: %v"] in
  let '(volumeManager', (queryResult, err)) :=
    volumes.QueryVolume (volumeManager st) (queryFilter st) in
  let calls' := calls st ++ [queryFilter st] in
  match err with
  | Some err =>
    Return {| volumeManager := volumeManager';
              queryFilter := queryFilter st;
              allQueryResults := allQueryResults st;
              calls := calls';
              log := log1 ++ [logger.Errorf "failed to QueryVolume using filter: %+v"] |}
           ([], Some err)
  | None =>
    match queryResult with
    | None =>
      Return {| volumeManager := volumeManager';
                queryFilter := queryFilter st;
                allQueryResults := allQueryResults st;
                calls := calls';
                log := log1 ++ [logger.Infof "Observed empty queryResult"] |}
             (allQueryResults st, None)
    | Some queryResult =>
      let allQueryResults' := allQueryResults st ++ [queryResult] in
      let log2 := log1 ++ [logger.Infof "%v more volumes to be queried"] in
      if Z.eqb (cnstypes.Offset (cnstypes.Cursor queryResult))
               (cnstypes.TotalRecords (cnstypes.Cursor queryResult))
      then
        Return {| volumeManager := volumeManager';
                  queryFilter := queryFilter st;
                  allQueryResults := allQueryResults';
                  calls := calls';
                  log := log2 ++ [logger.Infof "Metadata retrieved for all requested volumes"] |}
               (allQueryResults', None)
      else
        Next {| volumeManager := volumeManager';
                queryFilter :=
                  {| cnstypes.VolumeIds := cnstypes.VolumeIds (queryFilter st);
                     cnstypes.ContainerClusterIds :=
                       cnstypes.ContainerClusterIds (queryFilter st);
                     cnstypes.filter_Cursor := Some (cnstypes.Cursor queryResult) |};
                allQueryResults := allQueryResults';
                calls := calls';
                log := log2 |}
    end
  end.

(** The state an iteration ends in. *)
Definition stateOf (it : Iteration) : QueryLoop :=
  match it with Next st | Return st _ => st end.

(** The [for { ... }] loop, run for at most [fuel] iterations; [None]
    when the loop is still running after [fuel] iterations. *)
Fixpoint queryLoop (fuel : nat) (st : QueryLoop)
  : option (QueryLoop * (list cnstypes.CnsQueryResult * option error)) :=
  match fuel with
  | O => None
  | Datatypes.S fuel' =>
    match loopBody st with
    | Return st' ret => Some (st', ret)
    | Next st' => queryLoop fuel' st'
    end
  end.

(** The state in which the loop is entered. *)
Definition initialQuery (volumeIds : list cnstypes.CnsVolumeId) (clusterID : string)
    (volumeManager : B) : QueryLoop :=
  let queryFilter :=
    {| cnstypes.VolumeIds := volumeIds;
       cnstypes.ContainerClusterIds := [];
       cnstypes.filter_Cursor :=
         Some {| cnstypes.Offset := 0;
                 cnstypes.Limit := queryVolumeLimit;
                 cnstypes.TotalRecords := 0 |} |} in
  let queryFilter :=
    if negb (String.eqb clusterID "") then
      {| cnstypes.VolumeIds := cnstypes.VolumeIds queryFilter;
         cnstypes.ContainerClusterIds := [clusterID];
         cnstypes.filter_Cursor := cnstypes.filter_Cursor queryFilter |}
    else queryFilter in
  {| volumeManager := volumeManager;
     queryFilter := queryFilter;
     allQueryResults := [];
     calls := [];
     log := [logger.Debugf "FullSync: fullSyncGetQueryResults is called with volumeIds %v for clusterID %s"] |}.

(** fullSyncGetQueryResults returns list of CnsQueryResult retrieved
    using queryFilter with offset and limit to query volumes using
    pagination; if volumeIds is empty, then all volumes from CNS will be
    retrieved by pagination. *)
Definition fullSyncGetQueryResults (fuel : nat)
    (volumeIds : list cnstypes.CnsVolumeId) (clusterID : string) (volumeManager : B)
  : option (QueryLoop * (list cnstypes.CnsQueryResult * option error)) :=
  queryLoop fuel (initialQuery volumeIds clusterID volumeManager).

(** **** The responses a run of the loop sees *)

(** What the backend answers to the call of the coming iteration. *)
Definition response (st : QueryLoop) : volumes.Response :=
  snd (volumes.QueryVolume (volumeManager st) (queryFilter st)).

(** A response on which the loop is left: an error, a nil result, or a
    result whose cursor has reached its total. *)
Definition stops (r : volumes.Response) : bool :=
  match r with
  | (_, Some _) => true
  | (None, None) => true
  | (Some queryResult, None) =>
    Z.eqb (cnstypes.Offset (cnstypes.Cursor queryResult))
          (cnstypes.TotalRecords (cnstypes.Cursor queryResult))
  end.

(** The loop state at the start of iteration [n] (counting from 0), when
    no earlier iteration has left the loop. *)
Fixpoint iteration (n : nat) (st : QueryLoop) : option QueryLoop :=
  match n with
  | O => Some st
  | Datatypes.S n' =>
    match loopBody st with
    | Next st' => iteration n' st'
    | Return _ _ => None
    end
  end.

(** The [n]-th response of the backend in the run started from [st]. *)
Definition nthResponse (n : nat) (st : QueryLoop) : option volumes.Response :=
  response <$> iteration n st.

(** The response sequence eventually yields a stopping response. *)
Definition eventuallyStops (st : QueryLoop) : Prop :=
  ∃ n r, nthResponse n st = Some r ∧ stops r = true.
End query.

End syncer.


(** ** The remaining functions of [util.go] *)

(** Access modes ([k8s.io/api/core/v1]).  [pv.Spec.AccessModes] is not
    among the fields kept in [v1.PersistentVolume]; a volume together with
    its access modes is the record below. *)
Module accessmodes.
(** [type PersistentVolumeAccessMode string] *)
Definition PersistentVolumeAccessMode := string.
Definition ReadWriteOnce : PersistentVolumeAccessMode := "ReadWriteOnce".
Definition ReadOnlyMany : PersistentVolumeAccessMode := "ReadOnlyMany".
Definition ReadWriteMany : PersistentVolumeAccessMode := "ReadWriteMany".

Record PersistentVolume := {
  volume : v1.PersistentVolume;
  Spec_AccessModes : list PersistentVolumeAccessMode;
}.
End accessmodes.

(** Objects handed to the event handlers ([k8s.io/client-go/tools/cache]).
    An [interface{}] value is nil, a [DeletedFinalStateUnknown] tombstone
    (a key and a wrapped [interface{}]), or any other value. *)
Module cache.
Inductive Object (A : Type) : Type :=
| Nil
| DeletedFinalStateUnknown (Key : string) (Obj : Object A)
| Value (a : A).
Arguments Nil {A}.
Arguments DeletedFinalStateUnknown {A} Key Obj.
Arguments Value {A} a.

(** [obj != nil] *)
Definition isNil {A : Type} (obj : Object A) : bool :=
  match obj with Nil => true | _ => false end.

(** [DeletionHandlingMetaNamespaceKeyFunc] of the client library. *)
Class KeyFunc (A : Type) :=
  DeletionHandlingMetaNamespaceKeyFunc : Object A → string * option error.
End cache.

Section syncer_rest.
Context `{!Constants}.

(** getPVCKey helps to get the PVC name from PVC object.  Returns the pair
    of the Go function and the line it logs. *)
Definition getPVCKey {A : Type} `{!cache.KeyFunc A} (obj : cache.Object A)
  : (string * option error) * list logger.Entry :=
  let obj :=
    match obj with
    | cache.DeletedFinalStateUnknown _ unknownObj =>
      if negb (cache.isNil unknownObj) then unknownObj else obj
    | _ => obj
    end in
  let '(objKey, err) := cache.DeletionHandlingMetaNamespaceKeyFunc obj in
  match err with
  | Some err => (("", Some err), [logger.Errorf "Failed to get key from object: %v"])
  | None => ((objKey, None), [logger.Infof "getPVCKey: PVC key %s"])
  end.

(** HasMigratedToAnnotationUpdate returns true if the migrated-to
    annotation is found in the newer object.  (Debug tracing left out, as
    for the validity predicates.) *)
Definition HasMigratedToAnnotationUpdate
    (prevAnnotations newAnnotations : gmap string string) (objectName : string) : bool :=
  let '(_, annMigratedToFound) := map_get2 newAnnotations common_AnnMigratedTo in
  if annMigratedToFound then
    let '(_, annMigratedToFound) := map_get2 prevAnnotations common_AnnMigratedTo in
    if negb annMigratedToFound then true else false
  else false.

(** The [for] loop of [IsMultiAttachAllowed]: returns true at the first
    access mode that is ReadWriteMany or ReadOnlyMany. *)
Fixpoint someSharedMode (accessModes : list accessmodes.PersistentVolumeAccessMode)
  : bool :=
  match accessModes with
  | [] => false
  | accessMode :: rest =>
    if String.eqb accessMode accessmodes.ReadWriteMany
       || String.eqb accessMode accessmodes.ReadOnlyMany
    then true
    else someSharedMode rest
  end.

(** IsMultiAttachAllowed helps check accessModes on the PV and return true
    if volume can be attached to multiple nodes.  [pv] is a pointer: [None]
    is nil. *)
Definition IsMultiAttachAllowed (pv : option accessmodes.PersistentVolume) : bool :=
  match pv with
  | None => false
  | Some pv =>
    if Nat.eqb (length (accessmodes.Spec_AccessModes pv)) 0 then false
    else someSharedMode (accessmodes.Spec_AccessModes pv)
  end.

End syncer_rest.

(** The informer [metadataSyncer] with the pod cache holding [allPods]. *)
Definition withPods (metadataSyncer : metadataSyncInformer) (allPods : list v1.Pod)
  : metadataSyncInformer :=
  {| pvLister_List := pvLister_List metadataSyncer;
     pvLister_Get := pvLister_Get metadataSyncer;
     pvcLister_Get := pvcLister_Get metadataSyncer;
     podLister_List := Ok allPods;
     coCommonInterface_IsFSSEnabled := coCommonInterface_IsFSSEnabled metadataSyncer |}.

(** ** The specification's reading of driver ownership

    Stated in the words of the specification: a volume is owned when its
    owning driver is this plugin's driver, or, with the migration feature
    enabled, when it is a legacy vSphere volume whose annotations mark it
    as validly migrated. *)
Definition driverOwned `{!Constants} (metadataSyncer : metadataSyncInformer)
    (pv : v1.PersistentVolume) : Prop :=
  v1.Driver <$> v1.pv_Spec_CSI pv = Some csitypes_Name
  ∨ (coCommonInterface_IsFSSEnabled metadataSyncer common_CSIMigration = true
     ∧ is_Some (v1.pv_Spec_VsphereVolume pv)
     ∧ isValidvSphereVolume (v1.pv_ObjectMeta pv) = true).

#[export] Instance driverOwned_dec `{!Constants} metadataSyncer pv :
  Decision (driverOwned metadataSyncer pv).
Proof. unfold driverOwned. apply _. Defined.

(** The phases kept by the phase-filtered discovery. *)
Definition boundAvailableOrReleased (pv : v1.PersistentVolume) : Prop :=
  v1.pv_Status_Phase pv = v1.VolumeBound
  ∨ v1.pv_Status_Phase pv = v1.VolumeAvailable
  ∨ v1.pv_Status_Phase pv = v1.VolumeReleased.

#[export] Instance boundAvailableOrReleased_dec pv :
  Decision (boundAvailableOrReleased pv).
Proof. unfold boundAvailableOrReleased. apply _. Defined.

(** ** Worked inputs

    Concrete constants and cluster objects on which the definitions are
    run.  The names are those of the released driver; the page size is 2,
    as in the paging scenario of the specification. *)
Definition exampleConstants : Constants := {|
  csitypes_Name := "csi.vsphere.vmware.com";
  common_AnnMigratedTo := "pv.kubernetes.io/migrated-to";
  common_AnnStorageProvisioner := "volume.beta.kubernetes.io/storage-provisioner";
  common_AnnDynamicallyProvisioned := "pv.kubernetes.io/provisioned-by";
  common_InTreePluginName := "kubernetes.io/vsphere-volume";
  common_CSIMigration := "csi-migration";
  queryVolumeLimit := 2;
|}.

Definition meta (name : string) (annotations : list (string * string))
  : metav1.ObjectMeta :=
  {| metav1.Name := name;
     metav1.Namespace := "default";
     metav1.Annotations := list_to_map annotations |}.

(** A bound volume of this driver. *)
Definition pvNative : v1.PersistentVolume := {|
  v1.pv_ObjectMeta := meta "pv-native" [];
  v1.pv_Spec_CSI :=
    Some {| v1.Driver := "csi.vsphere.vmware.com"; v1.VolumeHandle := "vol-1" |};
  v1.pv_Spec_VsphereVolume := None;
  v1.pv_Status_Phase := v1.VolumeBound;
|}.

(** A bound legacy volume carrying the annotations of a valid migration. *)
Definition pvMigrated : v1.PersistentVolume := {|
  v1.pv_ObjectMeta :=
    meta "pv-migrated"
      [("pv.kubernetes.io/migrated-to", "csi.vsphere.vmware.com");
       ("pv.kubernetes.io/provisioned-by", "kubernetes.io/vsphere-volume")];
  v1.pv_Spec_CSI := None;
  v1.pv_Spec_VsphereVolume :=
    Some {| v1.VolumePath := "[ds1] kubevols/a.vmdk"; v1.StoragePolicyName := "" |};
  v1.pv_Status_Phase := v1.VolumeBound;
|}.

(** A bound volume of another CSI driver. *)
Definition pvForeign : v1.PersistentVolume := {|
  v1.pv_ObjectMeta := meta "pv-foreign" [];
  v1.pv_Spec_CSI := Some {| v1.Driver := "nfs.csi.k8s.io"; v1.VolumeHandle := "share-7" |};
  v1.pv_Spec_VsphereVolume := None;
  v1.pv_Status_Phase := v1.VolumeBound;
|}.

(** A volume of this driver that is still pending. *)
Definition pvPending : v1.PersistentVolume := {|
  v1.pv_ObjectMeta := meta "pv-pending" [];
  v1.pv_Spec_CSI :=
    Some {| v1.Driver := "csi.vsphere.vmware.com"; v1.VolumeHandle := "vol-2" |};
  v1.pv_Spec_VsphereVolume := None;
  v1.pv_Status_Phase := v1.VolumePending;
|}.

(** A released volume of this driver. *)
Definition pvReleased : v1.PersistentVolume := {|
  v1.pv_ObjectMeta := meta "pv-released" [];
  v1.pv_Spec_CSI :=
    Some {| v1.Driver := "csi.vsphere.vmware.com"; v1.VolumeHandle := "vol-3" |};
  v1.pv_Spec_VsphereVolume := None;
  v1.pv_Status_Phase := v1.VolumeReleased;
|}.

(** A bound legacy volume without any migration annotation. *)
Definition pvLegacy : v1.PersistentVolume := {|
  v1.pv_ObjectMeta := meta "pv-legacy" [];
  v1.pv_Spec_CSI := None;
  v1.pv_Spec_VsphereVolume :=
    Some {| v1.VolumePath := "[ds1] kubevols/c.vmdk"; v1.StoragePolicyName := "" |};
  v1.pv_Status_Phase := v1.VolumeBound;
|}.

Definition examplePVs : list v1.PersistentVolume :=
  [pvNative; pvMigrated; pvForeign; pvPending; pvReleased; pvLegacy].

Definition claimOn (name volumeName : string) : v1.PersistentVolumeClaim := {|
  v1.pvc_ObjectMeta := meta name [];
  v1.pvc_Spec_StorageClassName := None;
  v1.pvc_Spec_VolumeName := volumeName;
|}.

Definition exampleClaims : list v1.PersistentVolumeClaim :=
  [claimOn "claim-native" "pv-native";
   claimOn "claim-migrated" "pv-migrated";
   claimOn "claim-foreign" "pv-foreign";
   claimOn "claim-legacy" "pv-legacy"].

(** A pod with two inline legacy volumes and one claim-backed volume. *)
Definition podInline : v1.Pod := {|
  v1.pod_ObjectMeta := meta "pod-inline" [];
  v1.pod_Spec_Volumes :=
    [ {| v1.vol_Name := "data";
         v1.vol_VsphereVolume :=
           Some {| v1.VolumePath := "[ds1] kubevols/a.vmdk"; v1.StoragePolicyName := "" |};
         v1.vol_PersistentVolumeClaim := None |};
      {| v1.vol_Name := "lost";
         v1.vol_VsphereVolume :=
           Some {| v1.VolumePath := "[ds1] kubevols/gone.vmdk"; v1.StoragePolicyName := "" |};
         v1.vol_PersistentVolumeClaim := None |};
      {| v1.vol_Name := "claimed";
         v1.vol_VsphereVolume := None;
         v1.vol_PersistentVolumeClaim := Some {| v1.ClaimName := "claim-native" |} |} ];
|}.

(** A pod with one more inline legacy volume. *)
Definition podOther : v1.Pod := {|
  v1.pod_ObjectMeta := meta "pod-other" [];
  v1.pod_Spec_Volumes :=
    [ {| v1.vol_Name := "scratch";
         v1.vol_VsphereVolume :=
           Some {| v1.VolumePath := "[ds1] kubevols/b.vmdk"; v1.StoragePolicyName := "gold" |};
         v1.vol_PersistentVolumeClaim := None |} ];
|}.

Definition findByName {A : Type} (nameOf : A → string) (name : string) (l : list A)
  : result A :=
  match List.find (λ a, String.eqb (nameOf a) name) l with
  | Some a => Ok a
  | None => Err "not found"
  end.

(** An informer whose caches hold the objects above; [migration] is the
    state of every feature switch. *)
Definition exampleSyncer (migration : bool) : metadataSyncInformer := {|
  pvLister_List := Ok examplePVs;
  pvLister_Get := λ name,
    findByName (λ pv, metav1.Name (v1.pv_ObjectMeta pv)) name examplePVs;
  pvcLister_Get := λ _ name,
    findByName (λ pvc, metav1.Name (v1.pvc_ObjectMeta pvc)) name exampleClaims;
  podLister_List := Ok [podInline; podOther];
  coCommonInterface_IsFSSEnabled := λ _, migration;
|}.

(** An informer whose caches cannot be listed. *)
Definition brokenSyncer : metadataSyncInformer := {|
  pvLister_List := Err "cache not synced";
  pvLister_Get := λ _, Err "cache not synced";
  pvcLister_Get := λ _ _, Err "cache not synced";
  podLister_List := Err "cache not synced";
  coCommonInterface_IsFSSEnabled := λ _, true;
|}.

(** A claim with no structured class name and the legacy annotation. *)
Definition claimFastDisk : v1.PersistentVolumeClaim := {|
  v1.pvc_ObjectMeta :=
    meta "claim-fast" [("volume.beta.kubernetes.io/storage-class", "fast-disk")];
  v1.pvc_Spec_StorageClassName := Some "";
  v1.pvc_Spec_VolumeName := "";
|}.

(** Metadata of a claim migrated from the in-tree plugin. *)
Definition metaMigratedClaim : metav1.ObjectMeta :=
  meta "claim-legacy"
    [("pv.kubernetes.io/migrated-to", "csi.vsphere.vmware.com");
     ("volume.beta.kubernetes.io/storage-provisioner", "kubernetes.io/vsphere-volume")].

(** Metadata of a claim whose migrated-to annotation names another driver. *)
Definition metaElsewhereClaim : metav1.ObjectMeta :=
  meta "claim-elsewhere"
    [("pv.kubernetes.io/migrated-to", "ebs.csi.aws.com");
     ("volume.beta.kubernetes.io/storage-provisioner", "csi.vsphere.vmware.com")].

(** The pod volume backed by claim [claim]. *)
Definition claimedVolume (claim : string) : v1.Volume := {|
  v1.vol_Name := "data";
  v1.vol_VsphereVolume := None;
  v1.vol_PersistentVolumeClaim := Some {| v1.ClaimName := claim |};
|}.

(** A migration service that knows two legacy disks.  Its state counts the
    calls it has served. *)
#[export] Instance exampleService : migration.VolumeMigrationService nat :=
  λ served spec,
    (Datatypes.S served,
     if String.eqb (migration.VolumePath spec) "[ds1] kubevols/a.vmdk" then Ok "vol-a"
     else if String.eqb (migration.VolumePath spec) "[ds1] kubevols/b.vmdk" then Ok "vol-b"
     else Err "volume is not registered").

(** A migration service that answers every path with the same ID. *)
#[export] Instance collidingService : migration.VolumeMigrationService unit :=
  λ _ _, (tt, Ok "vol-x").

(** A page of volume records with the given cursor position. *)
Definition page (ids : list string) (offset total : Z) : cnstypes.CnsQueryResult := {|
  cnstypes.Volumes :=
    (λ id, {| cnstypes.VolumeId := {| cnstypes.Id := id |}; cnstypes.Name := id |}) <$> ids;
  cnstypes.Cursor :=
    {| cnstypes.Offset := offset; cnstypes.Limit := 2; cnstypes.TotalRecords := total |};
|}.

(** A backend that serves a catalog of volume records page by page: a query
    returns the records from the cursor's offset on, at most [Limit] of
    them, and a cursor moved past them. *)
#[export] Instance catalogManager : volumes.Manager (list cnstypes.CnsVolume) :=
  λ catalog filter,
    match cnstypes.filter_Cursor filter with
    | None => (catalog, (None, Some "query without cursor"))
    | Some cursor =>
      let records :=
        take (Z.to_nat (cnstypes.Limit cursor))
             (drop (Z.to_nat (cnstypes.Offset cursor)) catalog) in
      (catalog,
       (Some {| cnstypes.Volumes := records;
                cnstypes.Cursor :=
                  {| cnstypes.Offset :=
                       cnstypes.Offset cursor + Z.of_nat (length records);
                     cnstypes.Limit := cnstypes.Limit cursor;
                     cnstypes.TotalRecords := Z.of_nat (length catalog) |} |},
        None))
    end.

Definition fiveVolumes : list cnstypes.CnsVolume :=
  cnstypes.Volumes (page ["v1"; "v2"; "v3"; "v4"; "v5"] 0 5).

(** A backend that answers from a script, whatever the filter, and with a
    nil result once the script is used up. *)
#[export] Instance scriptedManager : volumes.Manager (list volumes.Response) :=
  λ script _,
    match script with
    | [] => ([], (None, None))
    | r :: script' => (script', r)
    end.

Definition secondPageFails : list volumes.Response :=
  [(Some (page ["v1"; "v2"] 2 5), None); (None, Some "connection reset")].

Definition secondPageNil : list volumes.Response :=
  [(Some (page ["v1"; "v2"] 2 5), None); (None, None)].

Definition firstPageEmpty : list volumes.Response :=
  [(Some (page [] 0 2), None); (Some (page ["v1"; "v2"] 2 2), None)].

(** A backend that forever answers with a page without records whose
    cursor never reaches its total. *)
#[export] Instance stuckManager : volumes.Manager unit :=
  λ _ _, (tt, (Some (page [] 0 1), None)).

(** The specification's empty-or-nil result, read literally: no error, and
    either no result or a result without records. *)
Definition emptyOrNil (r : volumes.Response) : Prop :=
  r.2 = None
  ∧ match r.1 with
    | None => True
    | Some queryResult => cnstypes.Volumes queryResult = []
    end.

(** A pod all of whose volumes are backed by claims. *)
Definition podClaimed : v1.Pod := {|
  v1.pod_ObjectMeta := meta "pod-claimed" [];
  v1.pod_Spec_Volumes := [claimedVolume "claim-native"; claimedVolume "claim-foreign"];
|}.

(** * Properties *)

Section properties.
Context `{!Constants}.

(** ** Go maps *)

(** A present value that is not the zero value is what [m[k]] reads. *)
Lemma map_get_present (m : gmap string string) (k v : string) :
  v ≠ "" → (map_get m k = v ↔ m !! k = Some v).
Proof.
  intros Hv. unfold map_get. destruct (m !! k) as [w|]; simpl; split.
  - now intros ->.
  - now intros [= ->].
  - intros <-. now destruct Hv.
  - discriminate.
Qed.

(** ** Validity of a claim *)

(** C7: [isValidvSphereVolumeClaim] returns true exactly when (a) the
    migrated-to annotation is present with this plugin's name and the
    storage-provisioner annotation is the in-tree plugin name, or (b) the
    migrated-to annotation is absent and the storage-provisioner annotation
    is this plugin's name.  In every other case, in particular with a
    migrated-to annotation of any other value, it returns false. *)
Theorem isValidvSphereVolumeClaim_iff (pvcMetadata : metav1.ObjectMeta) :
  (isValidvSphereVolumeClaim pvcMetadata = true ↔
     (metav1.Annotations pvcMetadata !! common_AnnMigratedTo = Some csitypes_Name
      ∧ map_get (metav1.Annotations pvcMetadata) common_AnnStorageProvisioner
        = common_InTreePluginName)
     ∨ (metav1.Annotations pvcMetadata !! common_AnnMigratedTo = None
        ∧ map_get (metav1.Annotations pvcMetadata) common_AnnStorageProvisioner
          = csitypes_Name))
  ∧ (∀ other,
       metav1.Annotations pvcMetadata !! common_AnnMigratedTo = Some other →
       other ≠ csitypes_Name →
       isValidvSphereVolumeClaim pvcMetadata = false).
Proof.
  unfold isValidvSphereVolumeClaim, map_get2.
  destruct (metav1.Annotations pvcMetadata !! common_AnnMigratedTo) as [a|] eqn:Ea.
  - split.
    + destruct (String.eqb_spec a csitypes_Name) as [->|Hne]; simpl.
      * destruct (String.eqb_spec
                    (map_get (metav1.Annotations pvcMetadata) common_AnnStorageProvisioner)
                    common_InTreePluginName) as [Ep|Hp].
        -- split; [intros _; left; now split | reflexivity].
        -- split; [discriminate|]. intros [[_ Ep]|[? _]]; [now destruct Hp | discriminate].
      * split; [discriminate|].
        intros [[[= Ha] _]|[? _]]; [now destruct Hne | discriminate].
    + intros other [= ->] Hne.
      destruct (String.eqb_spec other csitypes_Name) as [->|_]; [now destruct Hne|reflexivity].
  - split; [|discriminate].
    destruct (String.eqb_spec
                (map_get (metav1.Annotations pvcMetadata) common_AnnStorageProvisioner)
                csitypes_Name) as [Ep|Hp].
    + split; [intros _; right; now split | reflexivity].
    + split; [discriminate|]. intros [[? _]|[_ Ep]]; [discriminate | now destruct Hp].
Qed.

(** The same rule with the dynamically-provisioned-by annotation, for the
    metadata of a volume. *)
Lemma isValidvSphereVolume_iff (pvMetadata : metav1.ObjectMeta) :
  isValidvSphereVolume pvMetadata = true ↔
    (metav1.Annotations pvMetadata !! common_AnnMigratedTo = Some csitypes_Name
     ∧ map_get (metav1.Annotations pvMetadata) common_AnnDynamicallyProvisioned
       = common_InTreePluginName)
    ∨ (metav1.Annotations pvMetadata !! common_AnnMigratedTo = None
       ∧ map_get (metav1.Annotations pvMetadata) common_AnnDynamicallyProvisioned
         = csitypes_Name).
Proof.
  unfold isValidvSphereVolume, map_get2.
  destruct (metav1.Annotations pvMetadata !! common_AnnMigratedTo) as [a|] eqn:Ea.
  - destruct (String.eqb_spec a csitypes_Name) as [->|Hne]; simpl.
    + destruct (String.eqb_spec
                  (map_get (metav1.Annotations pvMetadata) common_AnnDynamicallyProvisioned)
                  common_InTreePluginName) as [Ep|Hp].
      * split; [intros _; left; now split | reflexivity].
      * split; [discriminate|]. intros [[_ Ep]|[? _]]; [now destruct Hp | discriminate].
    + split; [discriminate|].
      intros [[[= Ha] _]|[? _]]; [now destruct Hne | discriminate].
  - destruct (String.eqb_spec
                (map_get (metav1.Annotations pvMetadata) common_AnnDynamicallyProvisioned)
                csitypes_Name) as [Ep|Hp].
    + split; [intros _; right; now split | reflexivity].
    + split; [discriminate|]. intros [[? _]|[_ Ep]]; [discriminate | now destruct Hp].
Qed.

(** ** Storage class of a claim *)

(** C8: [GetSCNameFromPVC] returns the structured class name when it is
    set and not empty; otherwise the value of the legacy annotation when
    that is not empty; otherwise the error that the storage class is not
    specified.  It never returns an empty name together with a nil error. *)
Theorem GetSCNameFromPVC_resolution (pvc : v1.PersistentVolumeClaim) :
  (∀ scName,
     v1.pvc_Spec_StorageClassName pvc = Some scName → scName ≠ "" →
     GetSCNameFromPVC pvc = (scName, None))
  ∧ (v1.pvc_Spec_StorageClassName pvc = None
     ∨ v1.pvc_Spec_StorageClassName pvc = Some "" →
     map_get (metav1.Annotations (v1.pvc_ObjectMeta pvc)) scNameAnnotationKey ≠ "" →
     GetSCNameFromPVC pvc
     = (map_get (metav1.Annotations (v1.pvc_ObjectMeta pvc)) scNameAnnotationKey, None))
  ∧ (v1.pvc_Spec_StorageClassName pvc = None
     ∨ v1.pvc_Spec_StorageClassName pvc = Some "" →
     map_get (metav1.Annotations (v1.pvc_ObjectMeta pvc)) scNameAnnotationKey = "" →
     GetSCNameFromPVC pvc = ("", Some "storage class name not specified in PVC"))
  ∧ (∀ name, GetSCNameFromPVC pvc = (name, None) → name ≠ "").
Proof.
  unfold GetSCNameFromPVC.
  destruct (String.eqb_spec
              (map_get (metav1.Annotations (v1.pvc_ObjectMeta pvc)) scNameAnnotationKey) "")
    as [Ea|Ha];
    destruct (v1.pvc_Spec_StorageClassName pvc) as [s|] eqn:Es;
    try destruct (String.eqb_spec s "") as [->|Hs];
    repeat split; intros; simplify_eq; try (destruct_or?; simplify_eq); try done.
Qed.

(** ** Discovery of persistent volumes *)

Lemma hasCSIDriver_true (pv : v1.PersistentVolume) :
  hasCSIDriver pv = true ↔ v1.Driver <$> v1.pv_Spec_CSI pv = Some csitypes_Name.
Proof.
  unfold hasCSIDriver. destruct (v1.pv_Spec_CSI pv) as [csi|]; simpl.
  - rewrite String.eqb_eq. split; [now intros -> | now intros [= ->]].
  - split; discriminate.
Qed.

Lemma hasVsphereVolume_true (pv : v1.PersistentVolume) :
  hasVsphereVolume pv = true ↔ is_Some (v1.pv_Spec_VsphereVolume pv).
Proof.
  unfold hasVsphereVolume. destruct (v1.pv_Spec_VsphereVolume pv); simpl.
  - split; [eauto | reflexivity].
  - split; [discriminate | now intros [? ?]].
Qed.

(** The ownership test of the phase-filtered discovery is [driverOwned]. *)
Lemma ownership_test (metadataSyncer : metadataSyncInformer) (pv : v1.PersistentVolume) :
  hasCSIDriver pv
  || (coCommonInterface_IsFSSEnabled metadataSyncer common_CSIMigration
      && hasVsphereVolume pv
      && isValidvSphereVolume (v1.pv_ObjectMeta pv)) = true
  ↔ driverOwned metadataSyncer pv.
Proof.
  unfold driverOwned.
  rewrite orb_true_iff, !andb_true_iff, hasCSIDriver_true, hasVsphereVolume_true.
  tauto.
Qed.

Lemma phase_test (pv : v1.PersistentVolume) :
  String.eqb (v1.pv_Status_Phase pv) v1.VolumeBound
  || String.eqb (v1.pv_Status_Phase pv) v1.VolumeAvailable
  || String.eqb (v1.pv_Status_Phase pv) v1.VolumeReleased = true
  ↔ boundAvailableOrReleased pv.
Proof.
  unfold boundAvailableOrReleased. rewrite !orb_true_iff, !String.eqb_eq. tauto.
Qed.

(** A loop that appends the elements passing a test computes a filter. *)
Lemma foldl_append_filter {A : Type} (P : A → Prop) `{!∀ x, Decision (P x)}
    (body : list A → A → list A) :
  (∀ acc x, body acc x = if decide (P x) then acc ++ [x] else acc) →
  ∀ l acc, foldl body acc l = acc ++ filter P l.
Proof.
  intros Hbody l. induction l as [|x l IH]; intros acc; simpl.
  - now rewrite app_nil_r.
  - rewrite IH, Hbody, filter_cons. destruct (decide (P x)).
    + now rewrite <- app_assoc.
    + reflexivity.
Qed.

(** C4: when the lister fails its error is returned with a nil slice;
    otherwise [getPVsInBoundAvailableOrReleased] returns, in lister order,
    exactly the volumes that are owned by the driver (a CSI source with this
    plugin's driver name, or, with migration enabled, a legacy vSphere
    source with valid annotations) and whose phase is Bound, Available or
    Released; no other volume is included. *)
Theorem getPVsInBoundAvailableOrReleased_exact (metadataSyncer : metadataSyncInformer) :
  match pvLister_List metadataSyncer with
  | Err err => getPVsInBoundAvailableOrReleased metadataSyncer = ([], Some err)
  | Ok allPVs =>
    getPVsInBoundAvailableOrReleased metadataSyncer
    = (filter (λ pv, driverOwned metadataSyncer pv ∧ boundAvailableOrReleased pv) allPVs,
       None)
    ∧ ∀ pv, pv ∈ (getPVsInBoundAvailableOrReleased metadataSyncer).1
            ↔ pv ∈ allPVs
              ∧ (v1.Driver <$> v1.pv_Spec_CSI pv = Some csitypes_Name
                 ∨ (coCommonInterface_IsFSSEnabled metadataSyncer common_CSIMigration = true
                    ∧ is_Some (v1.pv_Spec_VsphereVolume pv)
                    ∧ isValidvSphereVolume (v1.pv_ObjectMeta pv) = true))
              ∧ (v1.pv_Status_Phase pv = v1.VolumeBound
                 ∨ v1.pv_Status_Phase pv = v1.VolumeAvailable
                 ∨ v1.pv_Status_Phase pv = v1.VolumeReleased)
  end.
Proof.
  unfold getPVsInBoundAvailableOrReleased.
  destruct (pvLister_List metadataSyncer) as [allPVs|err]; [|reflexivity].
  assert (E : ∀ body, body = (λ (acc : list v1.PersistentVolume) pv,
              if hasCSIDriver pv
                 || (coCommonInterface_IsFSSEnabled metadataSyncer common_CSIMigration
                     && hasVsphereVolume pv
                     && isValidvSphereVolume (v1.pv_ObjectMeta pv))
              then
                if String.eqb (v1.pv_Status_Phase pv) v1.VolumeBound
                   || String.eqb (v1.pv_Status_Phase pv) v1.VolumeAvailable
                   || String.eqb (v1.pv_Status_Phase pv) v1.VolumeReleased
                then acc ++ [pv] else acc
              else acc) →
            foldl body [] allPVs
            = filter (λ pv, driverOwned metadataSyncer pv ∧ boundAvailableOrReleased pv)
                     allPVs).
  { intros body ->.
    rewrite (foldl_append_filter
               (λ pv, driverOwned metadataSyncer pv ∧ boundAvailableOrReleased pv));
      [reflexivity|].
    intros acc pv.
    pose proof (ownership_test metadataSyncer pv) as Ho.
    pose proof (phase_test pv) as Hp.
    destruct (decide (driverOwned metadataSyncer pv ∧ boundAvailableOrReleased pv))
      as [[Hd Hb]|Hn].
    - apply Ho in Hd. apply Hp in Hb. now rewrite Hd, Hb.
    - destruct (hasCSIDriver pv || _) eqn:E1; [|reflexivity].
      destruct (String.eqb (v1.pv_Status_Phase pv) v1.VolumeBound || _ || _) eqn:E2;
        [|reflexivity].
      destruct Hn. split; [now apply Ho | now apply Hp]. }
  rewrite (E _ eq_refl). split; [reflexivity|].
  intros pv. simpl. rewrite list_elem_of_filter.
  unfold driverOwned, boundAvailableOrReleased. tauto.
Qed.

(** C5 (as the code has it): when the lister fails its error is returned
    with a nil slice; otherwise [getBoundPVs] returns, in lister order,
    exactly the volumes that have a CSI source with this plugin's driver
    name and whose phase is Bound.  A volume without such a CSI source, a
    migrated legacy volume included, is never returned, whatever the state
    of the migration feature. *)
Theorem getBoundPVs_exact (metadataSyncer : metadataSyncInformer) :
  match pvLister_List metadataSyncer with
  | Err err => getBoundPVs metadataSyncer = ([], Some err)
  | Ok allPVs =>
    getBoundPVs metadataSyncer
    = (filter (λ pv, v1.Driver <$> v1.pv_Spec_CSI pv = Some csitypes_Name
                     ∧ v1.pv_Status_Phase pv = v1.VolumeBound) allPVs,
       None)
    ∧ ∀ pv, pv ∈ (getBoundPVs metadataSyncer).1
            ↔ pv ∈ allPVs
              ∧ v1.Driver <$> v1.pv_Spec_CSI pv = Some csitypes_Name
              ∧ v1.pv_Status_Phase pv = v1.VolumeBound
  end.
Proof.
  unfold getBoundPVs.
  destruct (pvLister_List metadataSyncer) as [allPVs|err]; [|reflexivity].
  rewrite (foldl_append_filter
             (λ pv, v1.Driver <$> v1.pv_Spec_CSI pv = Some csitypes_Name
                    ∧ v1.pv_Status_Phase pv = v1.VolumeBound)).
  - split; [reflexivity|]. intros pv. simpl. rewrite list_elem_of_filter. tauto.
  - intros acc pv.
    pose proof (hasCSIDriver_true pv) as Hc.
    pose proof (String.eqb_eq (v1.pv_Status_Phase pv) v1.VolumeBound) as Hb.
    destruct (decide _) as [[Hd Hp]|Hn].
    + apply Hc in Hd. apply Hb in Hp. now rewrite Hd, Hp.
    + destruct (hasCSIDriver pv); [|reflexivity].
      destruct (String.eqb _ _); [|reflexivity].
      destruct Hn. split; [now apply Hc | now apply Hb].
Qed.

(** ** Validity of a volume mounted by a pod *)

(** What [IsValidVolume] decides once the claim and the volume are found:
    with migration enabled it accepts a volume that has this plugin's CSI
    driver or a legacy vSphere source; with migration disabled it accepts
    every volume without a legacy vSphere source. *)
Lemma IsValidVolume_decision volume pod metadataSyncer claim pvc pv :
  v1.vol_PersistentVolumeClaim volume = Some claim →
  pvcLister_Get metadataSyncer (metav1.Namespace (v1.pod_ObjectMeta pod))
                (v1.ClaimName claim) = Ok pvc →
  pvLister_Get metadataSyncer (v1.pvc_Spec_VolumeName pvc) = Ok pv →
  ∃ log,
    IsValidVolume volume pod metadataSyncer
    = Some (if if coCommonInterface_IsFSSEnabled metadataSyncer common_CSIMigration
               then hasCSIDriver pv || hasVsphereVolume pv
               else negb (hasVsphereVolume pv)
            then (true, Some pv, Some pvc)
            else (false, None, None),
            log).
Proof.
  intros Hv Hpvc Hpv. unfold IsValidVolume. rewrite Hv, Hpvc, Hpv.
  destruct (coCommonInterface_IsFSSEnabled metadataSyncer common_CSIMigration),
    (hasCSIDriver pv), (hasVsphereVolume pv); simpl; eauto.
Qed.

(** With migration disabled a legacy vSphere volume is rejected, and the
    rejection is logged as a warning. *)
Lemma IsValidVolume_legacy_disabled volume pod metadataSyncer claim pvc pv :
  v1.vol_PersistentVolumeClaim volume = Some claim →
  pvcLister_Get metadataSyncer (metav1.Namespace (v1.pod_ObjectMeta pod))
                (v1.ClaimName claim) = Ok pvc →
  pvLister_Get metadataSyncer (v1.pvc_Spec_VolumeName pvc) = Ok pv →
  coCommonInterface_IsFSSEnabled metadataSyncer common_CSIMigration = false →
  is_Some (v1.pv_Spec_VsphereVolume pv) →
  IsValidVolume volume pod metadataSyncer
  = Some ((false, None, None),
          [logger.Warnf "%s feature switch is disabled. Cannot update vSphere volume metadata %s for the pod %s"]).
Proof.
  intros Hv Hpvc Hpv Hfss Hvs. apply hasVsphereVolume_true in Hvs.
  unfold IsValidVolume. rewrite Hv, Hpvc, Hpv, Hfss, Hvs.
  now destruct (hasCSIDriver pv).
Qed.

(** ** Inline volumes of pods *)

Section inline_properties.
Context {S : Type} `{!migration.VolumeMigrationService S}.

Lemma recorded_cons a answers (m : gmap string string) :
  recorded (a :: answers) m
  = recorded answers (match a.2 with
                      | Ok volumeHandle => <[volumeHandle := v1.VolumePath a.1]> m
                      | Err _ => m
                      end).
Proof. reflexivity. Qed.

Lemma recorded_app answers1 answers2 (m : gmap string string) :
  recorded (answers1 ++ answers2) m = recorded answers2 (recorded answers1 m).
Proof. unfold recorded. apply foldl_app. Qed.

(** Failed resolutions leave no trace in the map. *)
Lemma recorded_skips_failures answers (m : gmap string string) :
  recorded answers m = recorded (List.filter (λ a, negb (isFailure a)) answers) m.
Proof.
  revert m. induction answers as [|[ref [id|e]] answers IH]; intros m.
  - reflexivity.
  - change (List.filter (λ a, negb (isFailure a)) ((ref, Ok id) :: answers))
      with ((ref, Ok id) :: List.filter (λ a, negb (isFailure a)) answers).
    rewrite !recorded_cons. apply IH.
  - change (List.filter (λ a, negb (isFailure a)) ((ref, Err e) :: answers))
      with (List.filter (λ a, negb (isFailure a)) answers).
    rewrite recorded_cons. apply IH.
Qed.

(** Every entry of the map comes from a successful resolution. *)
Lemma recorded_origin answers (m : gmap string string) id path :
  recorded answers m !! id = Some path →
  m !! id = Some path ∨ ∃ ref, (ref, Ok id) ∈ answers ∧ v1.VolumePath ref = path.
Proof.
  revert m. induction answers as [|[ref [h|e]] answers IH]; intros m.
  - now left.
  - rewrite recorded_cons. simpl. intros Hl.
    destruct (IH _ Hl) as [Hm|(ref' & Hin & Hp)].
    + destruct (decide (h = id)) as [->|Hne].
      * rewrite lookup_insert_eq in Hm. injection Hm as <-.
        right. exists ref. split; [apply list_elem_of_here | reflexivity].
      * rewrite lookup_insert_ne in Hm by done. now left.
    + right. exists ref'. split; [now apply list_elem_of_further | done].
  - rewrite recorded_cons. simpl. intros Hl.
    destruct (IH _ Hl) as [Hm|(ref' & Hin & Hp)]; [now left|].
    right. exists ref'. split; [now apply list_elem_of_further | done].
Qed.

(** Answers that do not resolve to [id] leave the entry of [id] alone. *)
Lemma recorded_untouched answers (m : gmap string string) id :
  (∀ ref, (ref, Ok id) ∉ answers) → recorded answers m !! id = m !! id.
Proof.
  revert m. induction answers as [|[ref [h|e]] answers IH]; intros m Hno.
  - reflexivity.
  - rewrite recorded_cons. simpl. rewrite IH.
    + apply lookup_insert_ne. intros ->. apply (Hno ref), list_elem_of_here.
    + intros ref' Hin. apply (Hno ref'). now apply list_elem_of_further.
  - rewrite recorded_cons. simpl. apply IH.
    intros ref' Hin. apply (Hno ref'). now apply list_elem_of_further.
Qed.

(** The last resolution of an ID decides its entry. *)
Lemma recorded_last before ref id after (m : gmap string string) :
  (∀ ref', (ref', Ok id) ∉ after) →
  recorded (before ++ (ref, Ok id) :: after) m !! id = Some (v1.VolumePath ref).
Proof.
  intros Hno. rewrite recorded_app, recorded_cons. simpl.
  rewrite recorded_untouched by done. apply lookup_insert_eq.
Qed.

Lemma recorded_keeps_keys answers (m : gmap string string) id :
  is_Some (m !! id) → is_Some (recorded answers m !! id).
Proof.
  revert m. induction answers as [|[ref [h|e]] answers IH]; intros m Hm.
  - done.
  - rewrite recorded_cons. simpl. apply IH.
    destruct (decide (h = id)) as [->|Hne].
    + rewrite lookup_insert_eq. eauto.
    + now rewrite lookup_insert_ne.
  - rewrite recorded_cons. simpl. now apply IH.
Qed.

(** Every resolved ID is a key of the map. *)
Lemma recorded_resolved answers (m : gmap string string) ref id :
  (ref, Ok id) ∈ answers → is_Some (recorded answers m !! id).
Proof.
  revert m. induction answers as [|a answers IH]; intros m Hin.
  - now apply elem_of_nil in Hin.
  - apply elem_of_cons in Hin as [<-|Hin].
    + rewrite recorded_cons. simpl. apply recorded_keeps_keys.
      rewrite lookup_insert_eq. eauto.
    + rewrite recorded_cons. now apply IH.
Qed.

(** With the feature off no volume is looked at. *)
Lemma scan_disabled (st : InlineScan) (allPods : list v1.Pod) :
  foldl (scanPod false) st allPods = st.
Proof.
  induction allPods as [|pod allPods IH]; simpl; [reflexivity|].
  assert (E : scanPod false st pod = st).
  { unfold scanPod. induction (v1.pod_Spec_Volumes pod) as [|v vs IHv]; simpl.
    - reflexivity.
    - now destruct st as [[svc m] log]. }
  now rewrite E.
Qed.

(** The two nested loops visit the volumes of all pods in sequence. *)
Lemma scan_pods_flat (flag : bool) (st : InlineScan) (allPods : list v1.Pod) :
  foldl (scanPod flag) st allPods
  = foldl (scanVolume flag) st (concat (v1.pod_Spec_Volumes <$> allPods)).
Proof.
  revert st. induction allPods as [|pod allPods IH]; intros st; simpl.
  - reflexivity.
  - now rewrite foldl_app, IH.
Qed.

(** With the feature on, the scan submits the legacy references in order,
    records the successes and logs one warning per failure. *)
Lemma scan_volumes_enabled (vols : list v1.Volume) svc (m : gmap string string) log :
  foldl (scanVolume true) (svc, m, log) vols
  = (serviceAfter svc (omap v1.vol_VsphereVolume vols),
     recorded (resolutions svc (omap v1.vol_VsphereVolume vols)) m,
     log ++ replicate
              (length (List.filter isFailure
                         (resolutions svc (omap v1.vol_VsphereVolume vols))))
              resolutionWarning).
Proof.
  revert svc m log. induction vols as [|v vols IH]; intros svc m log.
  - simpl. now rewrite app_nil_r.
  - cbn [foldl omap list_omap]. unfold scanVolume at 2.
    destruct (v1.vol_VsphereVolume v) as [vv|]; [|apply IH].
    cbn [resolutions serviceAfter].
    destruct (migration.GetVolumeID svc _) as [svc' [id|e]] eqn:E.
    + rewrite IH, recorded_cons. reflexivity.
    + rewrite IH, recorded_cons. cbn [List.filter isFailure snd length replicate].
      now rewrite <- app_assoc.
Qed.

(** C9: only a failure to list the pods gives an error (with a nil map).
    With the flag off the map is empty and the service is not called.  With
    the flag on every inline legacy reference of every pod is submitted to
    the migration service in order; the returned error is nil whatever the
    answers; the map holds exactly the successful resolutions (a failed one
    only adds a warning to the log and leaves the others untouched), each
    resolved ID is a key, every entry maps a resolved ID to the legacy path
    of a reference that resolved to it, namely the last such reference, and
    when no two references with different paths resolve to one ID every
    resolved ID is mapped to the path of its reference. *)
Theorem fullSyncGetInlineMigratedVolumesInfo_pass
    (metadataSyncer : metadataSyncInformer) (migrationFeatureState : bool) (svc : S) :
  match podLister_List metadataSyncer with
  | Err err =>
    (fullSyncGetInlineMigratedVolumesInfo metadataSyncer migrationFeatureState svc).1
    = (svc, (∅, Some err))
  | Ok allPods =>
    if migrationFeatureState then
      ∃ inlineVolumes,
        fullSyncGetInlineMigratedVolumesInfo metadataSyncer true svc
        = (serviceAfter svc (inlineReferences allPods), (inlineVolumes, None),
           replicate
             (length (List.filter isFailure (resolutions svc (inlineReferences allPods))))
             resolutionWarning)
        ∧ inlineVolumes
          = recorded (List.filter (λ a, negb (isFailure a))
                        (resolutions svc (inlineReferences allPods))) ∅
        ∧ (∀ ref id, (ref, Ok id) ∈ resolutions svc (inlineReferences allPods) →
                     is_Some (inlineVolumes !! id))
        ∧ (∀ id path, inlineVolumes !! id = Some path →
             ∃ ref, (ref, Ok id) ∈ resolutions svc (inlineReferences allPods)
                    ∧ v1.VolumePath ref = path)
        ∧ (∀ before ref id after,
             resolutions svc (inlineReferences allPods) = before ++ (ref, Ok id) :: after →
             (∀ ref', (ref', Ok id) ∉ after) →
             inlineVolumes !! id = Some (v1.VolumePath ref))
        ∧ ((∀ ref1 ref2 id,
              (ref1, Ok id) ∈ resolutions svc (inlineReferences allPods) →
              (ref2, Ok id) ∈ resolutions svc (inlineReferences allPods) →
              v1.VolumePath ref1 = v1.VolumePath ref2) →
           ∀ ref id, (ref, Ok id) ∈ resolutions svc (inlineReferences allPods) →
                     inlineVolumes !! id = Some (v1.VolumePath ref))
    else
      fullSyncGetInlineMigratedVolumesInfo metadataSyncer false svc = (svc, (∅, None), [])
  end.
Proof.
  unfold fullSyncGetInlineMigratedVolumesInfo.
  destruct (podLister_List metadataSyncer) as [allPods|err]; [|reflexivity].
  destruct migrationFeatureState.
  - rewrite scan_pods_flat, scan_volumes_enabled. fold (inlineReferences allPods).
    set (answers := resolutions svc (inlineReferences allPods)).
    exists (recorded answers ∅). repeat split.
    + apply recorded_skips_failures.
    + intros ref id Hin. now apply (recorded_resolved _ _ ref).
    + intros id path Hl. apply recorded_origin in Hl as [Hl|Hl]; [|done].
      now rewrite lookup_empty in Hl.
    + intros before ref id after -> Hno. now apply recorded_last.
    + intros Hinj ref id Hin.
      destruct (recorded_resolved answers ∅ ref id Hin) as [path Hl].
      rewrite Hl. f_equal.
      apply recorded_origin in Hl as [Hl|(ref' & Hin' & <-)].
      * now rewrite lookup_empty in Hl.
      * now apply (Hinj ref' ref id).
  - now rewrite scan_disabled.
Qed.

End inline_properties.

(** ** Paginated query of the backend *)

Section query_properties.
Context {B : Type} `{!volumes.Manager B}.

(** What one iteration does, by the response it receives. *)
Lemma loopBody_cases (st : QueryLoop) :
  match response st with
  | (_, Some err) =>
    ∃ st', loopBody st = Return st' ([], Some err)
           ∧ allQueryResults st' = allQueryResults st
  | (None, None) =>
    ∃ st', loopBody st = Return st' (allQueryResults st, None)
           ∧ allQueryResults st' = allQueryResults st
  | (Some queryResult, None) =>
    if Z.eqb (cnstypes.Offset (cnstypes.Cursor queryResult))
             (cnstypes.TotalRecords (cnstypes.Cursor queryResult))
    then
      ∃ st', loopBody st = Return st' (allQueryResults st ++ [queryResult], None)
             ∧ allQueryResults st' = allQueryResults st ++ [queryResult]
    else
      ∃ st', loopBody st = Next st'
             ∧ allQueryResults st' = allQueryResults st ++ [queryResult]
             ∧ cnstypes.filter_Cursor (queryFilter st') = Some (cnstypes.Cursor queryResult)
             ∧ cnstypes.VolumeIds (queryFilter st') = cnstypes.VolumeIds (queryFilter st)
             ∧ cnstypes.ContainerClusterIds (queryFilter st')
               = cnstypes.ContainerClusterIds (queryFilter st)
  end.
Proof.
  unfold response, loopBody.
  destruct (volumes.QueryVolume (volumeManager st) (queryFilter st))
    as [b' [[queryResult|] [err|]]]; simpl; eauto.
  destruct (Z.eqb _ _); eauto 10.
Qed.

(** Every iteration makes exactly one call, with the current filter. *)
Lemma loopBody_calls (st : QueryLoop) :
  calls (stateOf (loopBody st)) = calls st ++ [queryFilter st].
Proof.
  unfold loopBody.
  destruct (volumes.QueryVolume (volumeManager st) (queryFilter st))
    as [b' [[queryResult|] [err|]]]; simpl; try reflexivity.
  now destruct (Z.eqb _ _).
Qed.

(** An iteration leaves the loop exactly on a stopping response. *)
Lemma loopBody_stops (st : QueryLoop) :
  stops (response st) = true ↔ ∃ st' ret, loopBody st = Return st' ret.
Proof.
  pose proof (loopBody_cases st) as Hc. unfold stops.
  destruct (response st) as [[queryResult|] [err|]].
  - destruct Hc as (st' & -> & _). split; eauto.
  - destruct (Z.eqb _ _).
    + destruct Hc as (st' & -> & _). split; eauto.
    + destruct Hc as (st' & -> & _). split; [discriminate|]. now intros (? & ? & ?).
  - destruct Hc as (st' & -> & _). split; eauto.
  - destruct Hc as (st' & -> & _). split; eauto.
Qed.

Lemma iteration_succ (n : nat) (st : QueryLoop) :
  iteration (Datatypes.S n) st
  = match iteration n st with
    | Some st' => match loopBody st' with Next st'' => Some st'' | Return _ _ => None end
    | None => None
    end.
Proof.
  revert st. induction n as [|n IH]; intros st.
  - simpl. now destruct (loopBody st).
  - change (iteration (Datatypes.S (Datatypes.S n)) st)
      with (match loopBody st with
            | Next st' => iteration (Datatypes.S n) st'
            | Return _ _ => None
            end).
    change (iteration (Datatypes.S n) st)
      with (match loopBody st with
            | Next st' => iteration n st'
            | Return _ _ => None
            end).
    destruct (loopBody st) as [st1|]; [apply IH | reflexivity].
Qed.

(** Fuel spent on iterations that go round again. *)
Lemma queryLoop_after (n : nat) (st st' : QueryLoop) :
  iteration n st = Some st' → ∀ k, queryLoop (n + k) st = queryLoop k st'.
Proof.
  revert st. induction n as [|n IH]; intros st Hn k; simpl in *.
  - now injection Hn as ->.
  - destruct (loopBody st) as [st1|]; [now apply IH | discriminate].
Qed.

Lemma queryLoop_short (n : nat) (st st' : QueryLoop) :
  iteration n st = Some st' → ∀ fuel, fuel ≤ n → queryLoop fuel st = None.
Proof.
  revert st. induction n as [|n IH]; intros st Hn fuel Hle.
  - now replace fuel with 0 by lia.
  - destruct fuel as [|fuel]; [reflexivity|]. simpl in *.
    destruct (loopBody st) as [st1|]; [|discriminate].
    apply (IH st1 Hn). lia.
Qed.

(** The run that leaves the loop at iteration [n]. *)
Lemma queryLoop_leaves (n : nat) (st st' st'' : QueryLoop) ret :
  iteration n st = Some st' → loopBody st' = Return st'' ret →
  (∀ fuel, n < fuel → queryLoop fuel st = Some (st'', ret))
  ∧ (∀ fuel, fuel ≤ n → queryLoop fuel st = None).
Proof.
  intros Hn Hb. split; [|now apply (queryLoop_short n st st')].
  intros fuel Hlt. replace fuel with (n + Datatypes.S (fuel - n - 1)) by lia.
  rewrite (queryLoop_after n st st' Hn). simpl. now rewrite Hb.
Qed.

Lemma queryLoop_stops (fuel : nat) (st : QueryLoop) r :
  queryLoop fuel st = Some r → eventuallyStops st.
Proof.
  revert st. induction fuel as [|fuel IH]; intros st Hq; [discriminate|].
  simpl in Hq. destruct (loopBody st) as [st1|st1 ret] eqn:Hb.
  - destruct (IH st1 Hq) as (n & resp & Hn & Hs).
    exists (Datatypes.S n), resp. split; [|done].
    unfold nthResponse in *. simpl. now rewrite Hb.
  - exists 0, (response st). split; [reflexivity|].
    apply loopBody_stops. eauto.
Qed.

(** The pages gathered and the calls made when iteration [n] starts. *)
Lemma iteration_progress (n : nat) (st st' : QueryLoop) :
  iteration n st = Some st' →
  length (calls st') = length (calls st) + n
  ∧ length (allQueryResults st') = length (allQueryResults st) + n
  ∧ (∀ i, i < length (calls st) → calls st' !! i = calls st !! i)
  ∧ (∀ i, i < length (allQueryResults st) →
          allQueryResults st' !! i = allQueryResults st !! i)
  ∧ (∀ i, i < n →
       ∃ queryResult,
         nthResponse i st = Some (Some queryResult, None)
         ∧ allQueryResults st' !! (length (allQueryResults st) + i) = Some queryResult).
Proof.
  revert st'. induction n as [|n IH]; intros st' Hn.
  - injection Hn as <-. repeat split; try lia; try reflexivity.
  - rewrite iteration_succ in Hn.
    destruct (iteration n st) as [stn|] eqn:En; [|discriminate].
    destruct (IH stn eq_refl) as (Hc & Hp & Hcs & Hps & Hr).
    pose proof (loopBody_calls stn) as Hcalls.
    pose proof (loopBody_cases stn) as Hcases.
    destruct (loopBody stn) as [st1|] eqn:Hb; [|discriminate].
    injection Hn as ->. simpl in Hcalls.
    destruct (response stn) as [[queryResult|] [err|]] eqn:Er;
      try (destruct Hcases as (? & ? & _); discriminate).
    destruct (Z.eqb _ _); [destruct Hcases as (? & ? & _); discriminate|].
    destruct Hcases as (? & [= <-] & Ha & _).
    repeat split.
    + rewrite Hcalls, length_app. simpl. lia.
    + rewrite Ha, length_app. simpl. lia.
    + intros i Hi. rewrite Hcalls, lookup_app_l by lia. now apply Hcs.
    + intros i Hi. rewrite Ha, lookup_app_l by lia. now apply Hps.
    + intros i Hi. destruct (decide (i = n)) as [->|Hne].
      * exists queryResult. split.
        -- unfold nthResponse. now rewrite En; simpl; rewrite Er.
        -- rewrite Ha, <- Hp. rewrite lookup_app_r by lia.
           now replace (length (allQueryResults stn) - length (allQueryResults stn)) with 0
             by lia.
      * destruct (Hr i ltac:(lia)) as (qr & Hq & Hl). exists qr. split; [done|].
        rewrite Ha, lookup_app_l; [done|]. apply lookup_lt_Some in Hl. lia.
Qed.

(** The loop is entered with a cursor at offset 0 and no page gathered. *)
Lemma initialQuery_start volumeIds clusterID (b : B) :
  cnstypes.filter_Cursor (queryFilter (initialQuery volumeIds clusterID b))
  = Some {| cnstypes.Offset := 0;
            cnstypes.Limit := queryVolumeLimit;
            cnstypes.TotalRecords := 0 |}
  ∧ cnstypes.VolumeIds (queryFilter (initialQuery volumeIds clusterID b)) = volumeIds
  ∧ allQueryResults (initialQuery volumeIds clusterID b) = []
  ∧ calls (initialQuery volumeIds clusterID b) = []
  ∧ volumeManager (initialQuery volumeIds clusterID b) = b.
Proof. unfold initialQuery. now destruct (negb (String.eqb clusterID "")). Qed.

(** C1: when the backend answers the first three calls with non-nil
    pages of 2, 2 and 1 records whose cursors read offset 2, 4 and 5 of 5
    records at limit 2, [fullSyncGetQueryResults] starts from a cursor at
    offset 0, makes exactly three calls (the second and third with the
    cursor the previous page returned), and returns the three pages in call
    order, 5 records in all, with a nil error; it needs exactly three
    iterations.  In general an iteration that receives a page whose cursor
    offset equals its total-record count appends the page and returns. *)
Theorem fullSyncGetQueryResults_three_pages
    volumeIds clusterID (b : B) (page1 page2 page3 : cnstypes.CnsQueryResult) :
  nthResponse 0 (initialQuery volumeIds clusterID b) = Some (Some page1, None) →
  nthResponse 1 (initialQuery volumeIds clusterID b) = Some (Some page2, None) →
  nthResponse 2 (initialQuery volumeIds clusterID b) = Some (Some page3, None) →
  length (cnstypes.Volumes page1) = 2 →
  length (cnstypes.Volumes page2) = 2 →
  length (cnstypes.Volumes page3) = 1 →
  cnstypes.Cursor page1
  = {| cnstypes.Offset := 2; cnstypes.Limit := 2; cnstypes.TotalRecords := 5 |} →
  cnstypes.Cursor page2
  = {| cnstypes.Offset := 4; cnstypes.Limit := 2; cnstypes.TotalRecords := 5 |} →
  cnstypes.Cursor page3
  = {| cnstypes.Offset := 5; cnstypes.Limit := 2; cnstypes.TotalRecords := 5 |} →
  (∃ st',
     (∀ fuel, 3 ≤ fuel →
        fullSyncGetQueryResults fuel volumeIds clusterID b
        = Some (st', ([page1; page2; page3], None)))
     ∧ (∀ fuel, fuel < 3 → fullSyncGetQueryResults fuel volumeIds clusterID b = None)
     ∧ length (calls st') = 3
     ∧ cnstypes.filter_Cursor <$> calls st'
       = [Some {| cnstypes.Offset := 0;
                  cnstypes.Limit := queryVolumeLimit;
                  cnstypes.TotalRecords := 0 |};
          Some (cnstypes.Cursor page1);
          Some (cnstypes.Cursor page2)]
     ∧ concat (cnstypes.Volumes <$> [page1; page2; page3])
       = cnstypes.Volumes page1 ++ cnstypes.Volumes page2 ++ cnstypes.Volumes page3
     ∧ length (concat (cnstypes.Volumes <$> [page1; page2; page3])) = 5)
  ∧ (∀ (st : QueryLoop) queryResult,
       response st = (Some queryResult, None) →
       cnstypes.Offset (cnstypes.Cursor queryResult)
       = cnstypes.TotalRecords (cnstypes.Cursor queryResult) →
       ∃ st', loopBody st = Return st' (allQueryResults st ++ [queryResult], None)).
Proof.
  intros P1 P2 P3 L1 L2 L3 C1 C2 C3.
  destruct (initialQuery_start volumeIds clusterID b) as (Hcur & _ & Hall & Hcalls & _).
  remember (initialQuery volumeIds clusterID b) as st0 eqn:Est0 in *.
  unfold fullSyncGetQueryResults. rewrite <- Est0. clear Est0.
  split.
  - (* first iteration *)
    assert (R0 : response st0 = (Some page1, None)) by (now injection P1).
    pose proof (loopBody_cases st0) as B0. rewrite R0, C1 in B0. simpl in B0.
    destruct B0 as (st1 & B0 & A1 & F1 & _).
    pose proof (loopBody_calls st0) as K1. rewrite B0 in K1. simpl in K1.
    (* second iteration *)
    assert (I1 : iteration 1 st0 = Some st1) by (simpl; now rewrite B0).
    assert (R1 : response st1 = (Some page2, None)).
    { unfold nthResponse in P2. rewrite I1 in P2. now injection P2. }
    pose proof (loopBody_cases st1) as B1. rewrite R1, C2 in B1. simpl in B1.
    destruct B1 as (st2 & B1 & A2 & F2 & _).
    pose proof (loopBody_calls st1) as K2. rewrite B1 in K2. simpl in K2.
    (* third iteration *)
    assert (I2 : iteration 2 st0 = Some st2) by (simpl; now rewrite B0, B1).
    assert (R2 : response st2 = (Some page3, None)).
    { unfold nthResponse in P3. rewrite I2 in P3. now injection P3. }
    pose proof (loopBody_cases st2) as B2. rewrite R2, C3 in B2. simpl in B2.
    destruct B2 as (st3 & B2 & A3).
    pose proof (loopBody_calls st2) as K3. rewrite B2 in K3. simpl in K3.
    rewrite A2, A1, Hall in B2. simpl in B2.
    destruct (queryLoop_leaves 2 st0 st2 st3 _ I2 B2) as [Hrun Hshort].
    exists st3. repeat split.
    + intros fuel Hf. apply Hrun. lia.
    + intros fuel Hf. apply Hshort. lia.
    + rewrite K3, K2, K1, Hcalls. reflexivity.
    + rewrite K3, K2, K1, Hcalls. simpl. now rewrite Hcur, F1, F2, C1, C2.
    + simpl. now rewrite app_nil_r.
    + simpl. rewrite app_nil_r, !length_app, L1, L2, L3. reflexivity.
  - intros st queryResult Hr Heq.
    pose proof (loopBody_cases st) as Hc. rewrite Hr in Hc.
    apply Z.eqb_eq in Heq. rewrite Heq in Hc.
    destruct Hc as (st' & Hb & _). eauto.
Qed.

(** C2: when the call of some iteration [n] (the second page is [n = 1])
    returns an error, [fullSyncGetQueryResults] returns that error with a
    nil slice: the [n] pages gathered before the failure are not returned. *)
Theorem fullSyncGetQueryResults_page_error
    volumeIds clusterID (b : B) (n : nat) queryResult err :
  nthResponse n (initialQuery volumeIds clusterID b) = Some (queryResult, Some err) →
  ∃ st',
    (∀ fuel, n < fuel →
       fullSyncGetQueryResults fuel volumeIds clusterID b = Some (st', ([], Some err)))
    ∧ (∀ fuel, fuel ≤ n → fullSyncGetQueryResults fuel volumeIds clusterID b = None)
    ∧ length (calls st') = Datatypes.S n
    ∧ length (allQueryResults st') = n.
Proof.
  unfold nthResponse, fullSyncGetQueryResults. intros Hn.
  destruct (initialQuery_start volumeIds clusterID b) as (_ & _ & Hall & Hcalls & _).
  set (st0 := initialQuery volumeIds clusterID b) in *.
  destruct (iteration n st0) as [stn|] eqn:En; [|discriminate].
  injection Hn as Hr.
  pose proof (loopBody_cases stn) as Hc. rewrite Hr in Hc.
  assert (∃ st', loopBody stn = Return st' ([], Some err)
                 ∧ allQueryResults st' = allQueryResults stn) as (st' & Hb & Ha)
    by (now destruct queryResult).
  pose proof (loopBody_calls stn) as Hk. rewrite Hb in Hk. simpl in Hk.
  destruct (iteration_progress n st0 stn En) as (Hlc & Hlp & _).
  destruct (queryLoop_leaves n st0 stn st' _ En Hb) as [Hrun Hshort].
  exists st'. repeat split; [done|done| |].
  - rewrite Hk, length_app, Hlc, Hcalls. simpl. lia.
  - rewrite Ha, Hlp, Hall. reflexivity.
Qed.

(** C3 (as the code has it): when the call of some iteration [n] returns a
    nil result with a nil error, the loop stops and
    [fullSyncGetQueryResults] returns, with a nil error, the pages gathered
    so far: the [n] pages of the earlier calls, in call order. *)
Theorem fullSyncGetQueryResults_nil_result
    volumeIds clusterID (b : B) (n : nat) :
  nthResponse n (initialQuery volumeIds clusterID b) = Some (None, None) →
  ∃ st' pages,
    (∀ fuel, n < fuel →
       fullSyncGetQueryResults fuel volumeIds clusterID b = Some (st', (pages, None)))
    ∧ (∀ fuel, fuel ≤ n → fullSyncGetQueryResults fuel volumeIds clusterID b = None)
    ∧ length (calls st') = Datatypes.S n
    ∧ length pages = n
    ∧ (∀ i, i < n →
         ∃ queryResult,
           nthResponse i (initialQuery volumeIds clusterID b) = Some (Some queryResult, None)
           ∧ pages !! i = Some queryResult).
Proof.
  unfold nthResponse at 1. unfold fullSyncGetQueryResults. intros Hn.
  destruct (initialQuery_start volumeIds clusterID b) as (_ & _ & Hall & Hcalls & _).
  set (st0 := initialQuery volumeIds clusterID b) in *.
  destruct (iteration n st0) as [stn|] eqn:En; [|discriminate].
  injection Hn as Hr.
  pose proof (loopBody_cases stn) as Hc. rewrite Hr in Hc.
  destruct Hc as (st' & Hb & Ha).
  pose proof (loopBody_calls stn) as Hk. rewrite Hb in Hk. simpl in Hk.
  destruct (iteration_progress n st0 stn En) as (Hlc & Hlp & _ & _ & Hpages).
  destruct (queryLoop_leaves n st0 stn st' _ En Hb) as [Hrun Hshort].
  exists st', (allQueryResults stn). repeat split; [done|done| | |].
  - rewrite Hk, length_app, Hlc, Hcalls. simpl. lia.
  - rewrite Hlp, Hall. reflexivity.
  - intros i Hi. destruct (Hpages i Hi) as (qr & Hq & Hl).
    exists qr. split; [done|]. now rewrite Hall in Hl.
Qed.

(** C10: the loop returns, given enough fuel, exactly when the responses
    of the backend eventually include an error, a nil result or a result
    whose cursor offset equals its total-record count; then every larger
    amount of fuel gives the same result.  Otherwise it is still running
    after any number of iterations.  In particular a non-nil page without
    records whose cursor offset differs from its total-record count is
    appended and the loop goes round again with that page's cursor. *)
Theorem queryLoop_terminates_iff (st : QueryLoop) :
  ((∃ fuel r, queryLoop fuel st = Some r) ↔ eventuallyStops st)
  ∧ (eventuallyStops st →
     ∃ fuel r, ∀ fuel', fuel ≤ fuel' → queryLoop fuel' st = Some r)
  ∧ (¬ eventuallyStops st → ∀ fuel, queryLoop fuel st = None)
  ∧ (∀ queryResult,
       response st = (Some queryResult, None) →
       cnstypes.Volumes queryResult = [] →
       cnstypes.Offset (cnstypes.Cursor queryResult)
       ≠ cnstypes.TotalRecords (cnstypes.Cursor queryResult) →
       ∃ st', loopBody st = Next st'
              ∧ allQueryResults st' = allQueryResults st ++ [queryResult]
              ∧ cnstypes.filter_Cursor (queryFilter st')
                = Some (cnstypes.Cursor queryResult)).
Proof.
  assert (Htotal : eventuallyStops st →
            ∃ fuel r, ∀ fuel', fuel ≤ fuel' → queryLoop fuel' st = Some r).
  { intros (n & resp & Hn & Hs). unfold nthResponse in Hn.
    destruct (iteration n st) as [stn|] eqn:En; [|discriminate].
    injection Hn as <-.
    apply loopBody_stops in Hs as (st' & ret & Hb).
    destruct (queryLoop_leaves n st stn st' ret En Hb) as [Hrun _].
    exists (Datatypes.S n), (st', ret). intros fuel' Hle. apply Hrun. lia. }
  repeat split.
  - intros (fuel & r & Hq). now apply (queryLoop_stops fuel st r).
  - intros Hs. destruct (Htotal Hs) as (fuel & r & Hq). exists fuel, r. now apply Hq.
  - exact Htotal.
  - intros Hno fuel. destruct (queryLoop fuel st) as [r|] eqn:Hq; [|reflexivity].
    destruct Hno. now apply (queryLoop_stops fuel st r).
  - intros queryResult Hr _ Hne.
    pose proof (loopBody_cases st) as Hc. rewrite Hr in Hc.
    apply Z.eqb_neq in Hne. rewrite Hne in Hc.
    destruct Hc as (st' & Hb & Ha & Hf & _). eauto.
Qed.

End query_properties.

End properties.

(** * Worked examples

    The statements above at the worked inputs. *)

(** A migrated claim is valid; a claim migrated to another driver is not. *)
Lemma isValidvSphereVolumeClaim_iff_witness :
  @isValidvSphereVolumeClaim exampleConstants metaMigratedClaim = true
  ∧ @isValidvSphereVolumeClaim exampleConstants metaElsewhereClaim = false.
Proof.
  split.
  - apply (proj1 (@isValidvSphereVolumeClaim_iff exampleConstants metaMigratedClaim)).
    left. split; reflexivity.
  - apply (proj2 (@isValidvSphereVolumeClaim_iff exampleConstants metaElsewhereClaim)
             "ebs.csi.aws.com"); [reflexivity | discriminate].
Defined.

(** The legacy annotation ["fast-disk"] resolves to ["fast-disk"]; a claim
    with neither field fails. *)
Lemma GetSCNameFromPVC_resolution_witness :
  GetSCNameFromPVC claimFastDisk = ("fast-disk", None)
  ∧ GetSCNameFromPVC (claimOn "claim-native" "pv-native")
    = ("", Some "storage class name not specified in PVC").
Proof.
  split.
  - apply (proj1 (proj2 (GetSCNameFromPVC_resolution claimFastDisk)));
      [right; reflexivity | vm_compute; discriminate].
  - apply (proj1 (proj2 (proj2
             (GetSCNameFromPVC_resolution (claimOn "claim-native" "pv-native")))));
      [left; reflexivity | reflexivity].
Defined.

(** With migration enabled the bound migrated volume passes the ownership
    filter of the phase-filtered discovery, yet [getBoundPVs] does not
    return it: its result is not the ownership filter restricted to Bound. *)
Lemma getBoundPVs_omits_migrated :
  pvMigrated ∈ examplePVs
  ∧ @driverOwned exampleConstants (exampleSyncer true) pvMigrated
  ∧ v1.pv_Status_Phase pvMigrated = v1.VolumeBound
  ∧ ¬ (pvMigrated ∈ fst (@getBoundPVs exampleConstants (exampleSyncer true)))
  ∧ @getBoundPVs exampleConstants (exampleSyncer true)
    ≠ (filter (λ pv, @driverOwned exampleConstants (exampleSyncer true) pv
                     ∧ v1.pv_Status_Phase pv = v1.VolumeBound) examplePVs,
       None).
Proof.
  split; [apply list_elem_of_In; vm_compute; tauto|].
  split.
  { right. split; [reflexivity|]. split; [now eexists | reflexivity]. }
  split; [reflexivity|].
  split.
  - intros Hin. apply list_elem_of_In in Hin. vm_compute in Hin.
    destruct Hin as [Hin|[]]. discriminate Hin.
  - intros Heq. apply (f_equal (λ r, length r.1)) in Heq. vm_compute in Heq.
    discriminate Heq.
Qed.

(** C6: with migration disabled, a claim bound to a volume of another CSI
    driver is accepted by [IsValidVolume], although that volume has neither
    this plugin's driver nor a legacy vSphere source; and with migration
    enabled a legacy volume without valid migration annotations is accepted
    as well. *)
Theorem IsValidVolume_accepts_foreign_volume :
  @IsValidVolume exampleConstants (claimedVolume "claim-foreign") podInline
                 (exampleSyncer false)
  = Some ((true, Some pvForeign, Some (claimOn "claim-foreign" "pv-foreign")), [])
  ∧ ¬ (@driverOwned exampleConstants (exampleSyncer false) pvForeign)
  ∧ v1.pv_Spec_VsphereVolume pvForeign = None
  ∧ @IsValidVolume exampleConstants (claimedVolume "claim-legacy") podInline
                   (exampleSyncer true)
    = Some ((true, Some pvLegacy, Some (claimOn "claim-legacy" "pv-legacy")), [])
  ∧ ¬ (@driverOwned exampleConstants (exampleSyncer true) pvLegacy).
Proof.
  split; [reflexivity|].
  split; [intros [Hd|(Hf & _)]; vm_compute in *; discriminate|].
  split; [reflexivity|].
  split; [reflexivity|].
  intros [Hd|(_ & _ & Hv)]; vm_compute in *; discriminate.
Qed.

(** The example service resolves two of the three inline references; the
    third only leaves a warning.  No two references share an ID, so both
    resolved IDs are mapped to the path of their reference. *)
Lemma fullSyncGetInlineMigratedVolumesInfo_pass_witness :
  ∃ inlineVolumes,
    fullSyncGetInlineMigratedVolumesInfo (exampleSyncer true) true 0
    = (3, (inlineVolumes, None), [resolutionWarning])
    ∧ inlineVolumes !! "vol-a" = Some "[ds1] kubevols/a.vmdk"
    ∧ inlineVolumes !! "vol-b" = Some "[ds1] kubevols/b.vmdk".
Proof.
  destruct (fullSyncGetInlineMigratedVolumesInfo_pass (exampleSyncer true) true 0)
    as (inlineVolumes & Hrun & _ & _ & _ & _ & Heach).
  exists inlineVolumes. split; [exact Hrun|].
  assert (Hdistinct :
    ∀ ref1 ref2 id,
      (ref1, Ok id) ∈ resolutions 0 (inlineReferences [podInline; podOther]) →
      (ref2, Ok id) ∈ resolutions 0 (inlineReferences [podInline; podOther]) →
      v1.VolumePath ref1 = v1.VolumePath ref2).
  { intros ref1 ref2 id H1 H2.
    apply list_elem_of_In in H1, H2. vm_compute in H1, H2.
    destruct H1 as [H1|[H1|[H1|[]]]], H2 as [H2|[H2|[H2|[]]]];
      congruence. }
  split.
  - apply (Heach Hdistinct
             {| v1.VolumePath := "[ds1] kubevols/a.vmdk"; v1.StoragePolicyName := "" |}).
    apply list_elem_of_In. vm_compute. tauto.
  - apply (Heach Hdistinct
             {| v1.VolumePath := "[ds1] kubevols/b.vmdk"; v1.StoragePolicyName := "gold" |}).
    apply list_elem_of_In. vm_compute. tauto.
Defined.

(** A catalog of five volumes served at page size 2: three calls, pages of
    2, 2 and 1 records. *)
Lemma fullSyncGetQueryResults_three_pages_witness :
  ∃ st',
    @fullSyncGetQueryResults exampleConstants _ _ 3 [] "cluster-1" fiveVolumes
    = Some (st', ([page ["v1"; "v2"] 2 5; page ["v3"; "v4"] 4 5; page ["v5"] 5 5], None))
    ∧ length (calls st') = 3.
Proof.
  destruct (@fullSyncGetQueryResults_three_pages exampleConstants _ catalogManager
              [] "cluster-1" fiveVolumes
              (page ["v1"; "v2"] 2 5) (page ["v3"; "v4"] 4 5) (page ["v5"] 5 5))
    as [(st' & Hrun & _ & Hcalls & _) _]; try reflexivity.
  exists st'. split; [apply Hrun; lia | exact Hcalls].
Defined.

(** The second call fails: the error is returned and the first page is not. *)
Lemma fullSyncGetQueryResults_page_error_witness :
  ∃ st',
    @fullSyncGetQueryResults exampleConstants _ _ 2 [] "" secondPageFails
    = Some (st', ([], Some "connection reset"))
    ∧ length (allQueryResults st') = 1.
Proof.
  destruct (@fullSyncGetQueryResults_page_error exampleConstants _ scriptedManager
              [] "" secondPageFails 1 None "connection reset")
    as (st' & Hrun & _ & _ & Hpages); [reflexivity|].
  exists st'. split; [apply Hrun; lia | exact Hpages].
Defined.

(** The second call returns a nil result: the first page is returned with a
    nil error. *)
Lemma fullSyncGetQueryResults_nil_result_witness :
  ∃ st' pages,
    @fullSyncGetQueryResults exampleConstants _ _ 2 [] "" secondPageNil
    = Some (st', (pages, None))
    ∧ pages !! 0 = Some (page ["v1"; "v2"] 2 5)
    ∧ length pages = 1.
Proof.
  destruct (@fullSyncGetQueryResults_nil_result exampleConstants _ scriptedManager
              [] "" secondPageNil 1)
    as (st' & pages & Hrun & _ & _ & Hlen & Hpages); [reflexivity|].
  exists st', pages. split; [apply Hrun; lia|]. split; [|exact Hlen].
  destruct (Hpages 0 ltac:(lia)) as (queryResult & Hresp & Hl).
  rewrite Hl. f_equal. vm_compute in Hresp. injection Hresp as <-. reflexivity.
Defined.

(** The first call returns a non-nil result without records and a cursor
    at 0 of 2: an empty result in the literal reading.  The iteration that
    receives it does not leave the loop with the pages gathered so far; a
    second call is made and both pages are returned. *)
Lemma fullSyncGetQueryResults_empty_page_continues :
  ¬ (emptyOrNil (response (@initialQuery exampleConstants _ [] "" firstPageEmpty)) →
     ∃ st',
       loopBody (@initialQuery exampleConstants _ [] "" firstPageEmpty)
       = Return st'
           (allQueryResults (@initialQuery exampleConstants _ [] "" firstPageEmpty), None))
  ∧ (∃ st', loopBody (@initialQuery exampleConstants _ [] "" firstPageEmpty) = Next st')
  ∧ ∃ st',
      @fullSyncGetQueryResults exampleConstants _ _ 2 [] "" firstPageEmpty
      = Some (st', ([page [] 0 2; page ["v1"; "v2"] 2 2], None))
      ∧ length (calls st') = 2.
Proof.
  split.
  - intros Hclaim. destruct Hclaim as (st' & Hb); [split; reflexivity|].
    vm_compute in Hb. discriminate Hb.
  - split; eexists; [reflexivity|]. split; reflexivity.
Qed.

(** The responses of the stuck backend never stop the loop. *)
Lemma stuck_never_stops (st : QueryLoop (B := unit)) : ¬ eventuallyStops st.
Proof.
  assert (Hnext : ∀ s : QueryLoop (B := unit), ∃ s', loopBody s = Next s').
  { intros s. unfold loopBody. simpl. eauto. }
  intros (n & resp & Hn & Hs). revert st resp Hn Hs.
  induction n as [|n IH]; intros st resp Hn Hs.
  - injection Hn as <-. discriminate Hs.
  - unfold nthResponse in Hn.
    change (iteration (Datatypes.S n) st)
      with (match loopBody st with
            | Next st' => iteration n st'
            | Return _ _ => None
            end) in Hn.
    destruct (Hnext st) as (s' & Hb). rewrite Hb in Hn.
    now apply (IH s' resp).
Qed.

(** On the catalog of five volumes the loop returns as soon as it has fuel
    for three iterations; on the stuck backend it never returns, and each
    of its pages without records is appended. *)
Lemma queryLoop_terminates_iff_witness :
  (∃ fuel r, ∀ fuel', fuel ≤ fuel' →
     @fullSyncGetQueryResults exampleConstants _ _ fuel' [] "cluster-1" fiveVolumes
     = Some r)
  ∧ (∀ fuel, @fullSyncGetQueryResults exampleConstants _ _ fuel [] "cluster-1" tt = None)
  ∧ (∃ st', loopBody (@initialQuery exampleConstants _ [] "cluster-1" tt) = Next st'
            ∧ allQueryResults st' = [page [] 0 1]).
Proof.
  split; [|split].
  - apply (proj1 (proj2 (@queryLoop_terminates_iff _ catalogManager
                           (@initialQuery exampleConstants _ [] "cluster-1" fiveVolumes)))).
    exists 2, (Some (page ["v5"] 5 5), None). split; reflexivity.
  - apply (proj1 (proj2 (proj2 (@queryLoop_terminates_iff _ stuckManager
                                  (@initialQuery exampleConstants _ [] "cluster-1" tt))))).
    apply stuck_never_stops.
  - destruct (proj2 (proj2 (proj2 (@queryLoop_terminates_iff _ stuckManager
                                     (@initialQuery exampleConstants _ [] "cluster-1" tt))))
                (page [] 0 1))
      as (st' & Hb & Ha & _); [reflexivity | reflexivity | discriminate |].
    exists st'. split; [exact Hb | exact Ha].
Defined.

(** * Further properties of [util.go] *)

Section further_properties.
Context `{!Constants}.

(** ** Annotation updates *)

(** An update is reported when the key appears. *)
Lemma migrated_to_appears
    (prevAnnotations newAnnotations : gmap string string) (objectName : string) :
  HasMigratedToAnnotationUpdate prevAnnotations newAnnotations objectName = true
  ↔ is_Some (newAnnotations !! common_AnnMigratedTo)
    ∧ prevAnnotations !! common_AnnMigratedTo = None.
Proof.
  unfold HasMigratedToAnnotationUpdate, map_get2.
  destruct (newAnnotations !! common_AnnMigratedTo) as [v|];
    destruct (prevAnnotations !! common_AnnMigratedTo) as [w|]; simpl.
  - split; [discriminate | now intros [_ ?]].
  - split; [eauto | reflexivity].
  - split; [discriminate | now intros [[? ?] _]].
  - split; [discriminate | now intros [[? ?] _]].
Qed.

(** X1: [HasMigratedToAnnotationUpdate] reports an update exactly when the
    newer annotations hold the migrated-to key and the previous ones do
    not.  Only the presence of the key counts: the values under it (even an
    empty one), every other annotation and the object name play no part. *)
Theorem HasMigratedToAnnotationUpdate_iff
    (prevAnnotations newAnnotations : gmap string string) (objectName : string) :
  (HasMigratedToAnnotationUpdate prevAnnotations newAnnotations objectName = true
   ↔ is_Some (newAnnotations !! common_AnnMigratedTo)
     ∧ prevAnnotations !! common_AnnMigratedTo = None)
  ∧ (∀ (prevAnnotations' newAnnotations' : gmap string string) objectName',
       (is_Some (prevAnnotations' !! common_AnnMigratedTo)
        ↔ is_Some (prevAnnotations !! common_AnnMigratedTo)) →
       (is_Some (newAnnotations' !! common_AnnMigratedTo)
        ↔ is_Some (newAnnotations !! common_AnnMigratedTo)) →
       HasMigratedToAnnotationUpdate prevAnnotations' newAnnotations' objectName'
       = HasMigratedToAnnotationUpdate prevAnnotations newAnnotations objectName).
Proof.
  split; [apply migrated_to_appears|].
  intros prev' new' name' Hp Hn.
  assert (Hnone : prev' !! common_AnnMigratedTo = None
                  ↔ prevAnnotations !! common_AnnMigratedTo = None).
  { rewrite !eq_None_not_Some. now rewrite Hp. }
  destruct (HasMigratedToAnnotationUpdate prevAnnotations newAnnotations objectName) eqn:E.
  - apply migrated_to_appears. apply migrated_to_appears in E as [E1 E2].
    split; [now apply Hn | now apply Hnone].
  - apply not_true_is_false. intros E'. apply not_true_iff_false in E. apply E.
    apply migrated_to_appears. apply migrated_to_appears in E' as [E1 E2].
    split; [now apply Hn | now apply Hnone].
Qed.

(** X2: an update is never reported twice in a row: when it is reported
    from one snapshot to the next, none is reported from that next snapshot
    to any later one, nor back to the earlier one; and none is ever
    reported between a snapshot and itself. *)
Theorem HasMigratedToAnnotationUpdate_once
    (first second : gmap string string) (name1 : string) :
  HasMigratedToAnnotationUpdate first second name1 = true →
  (∀ later name2, HasMigratedToAnnotationUpdate second later name2 = false)
  ∧ (∀ name2, HasMigratedToAnnotationUpdate second first name2 = false)
  ∧ (∀ snapshot name2, HasMigratedToAnnotationUpdate snapshot snapshot name2 = false).
Proof.
  intros Hup. apply migrated_to_appears in Hup as [[v Hnew] Hprev].
  repeat split; intros; apply not_true_is_false;
    rewrite migrated_to_appears; intros [Ha Hb]; simplify_eq.
  destruct Ha as [? Ha]. simplify_eq.
Qed.

(** ** Validity of a volume *)

(** X3: [isValidvSphereVolume] returns true exactly when the migrated-to
    annotation is present with this plugin's name and the provisioned-by
    annotation is the in-tree plugin name, or the migrated-to annotation is
    absent and the provisioned-by annotation is this plugin's name; with a
    migrated-to annotation of any other value it returns false whatever the
    provisioned-by annotation. *)
Theorem isValidvSphereVolume_rule (pvMetadata : metav1.ObjectMeta) :
  (isValidvSphereVolume pvMetadata = true ↔
     (metav1.Annotations pvMetadata !! common_AnnMigratedTo = Some csitypes_Name
      ∧ map_get (metav1.Annotations pvMetadata) common_AnnDynamicallyProvisioned
        = common_InTreePluginName)
     ∨ (metav1.Annotations pvMetadata !! common_AnnMigratedTo = None
        ∧ map_get (metav1.Annotations pvMetadata) common_AnnDynamicallyProvisioned
          = csitypes_Name))
  ∧ (∀ other,
       metav1.Annotations pvMetadata !! common_AnnMigratedTo = Some other →
       other ≠ csitypes_Name →
       isValidvSphereVolume pvMetadata = false).
Proof.
  split; [apply isValidvSphereVolume_iff|].
  intros other Hother Hne. apply not_true_is_false.
  rewrite isValidvSphereVolume_iff. intros [[Ha _]|[Ha _]]; congruence.
Qed.

(** Replacing the entry under another key does not change what is read
    under [k]. *)
Lemma map_get_other (m : gmap string string) (key k : string) (value : option string) :
  key ≠ k →
  map_get (partial_alter (λ _, value) key m) k = map_get m k
  ∧ map_get2 (partial_alter (λ _, value) key m) k = map_get2 m k.
Proof.
  intros Hne. unfold map_get, map_get2.
  now rewrite lookup_partial_alter_ne.
Qed.

(** X4: both validity predicates read only their two annotations: setting
    (to [Some value]) or removing ([None]) the entry of any other
    annotation key, and changing the name or namespace of the object,
    leaves the answer as it was. *)
Theorem validity_reads_two_annotations
    (metadata : metav1.ObjectMeta) (key : string) (value : option string)
    (name namespace : string) :
  key ≠ common_AnnMigratedTo →
  (key ≠ common_AnnStorageProvisioner →
   isValidvSphereVolumeClaim
     {| metav1.Name := name; metav1.Namespace := namespace;
        metav1.Annotations :=
          partial_alter (λ _, value) key (metav1.Annotations metadata) |}
   = isValidvSphereVolumeClaim metadata)
  ∧ (key ≠ common_AnnDynamicallyProvisioned →
     isValidvSphereVolume
       {| metav1.Name := name; metav1.Namespace := namespace;
          metav1.Annotations :=
            partial_alter (λ _, value) key (metav1.Annotations metadata) |}
     = isValidvSphereVolume metadata).
Proof.
  intros Hm. split; intros Hp.
  - unfold isValidvSphereVolumeClaim. simpl.
    destruct (map_get_other (metav1.Annotations metadata) key common_AnnMigratedTo value Hm)
      as [_ ->].
    destruct (map_get_other (metav1.Annotations metadata) key
                common_AnnStorageProvisioner value Hp) as [-> _].
    reflexivity.
  - unfold isValidvSphereVolume. simpl.
    destruct (map_get_other (metav1.Annotations metadata) key common_AnnMigratedTo value Hm)
      as [_ ->].
    destruct (map_get_other (metav1.Annotations metadata) key
                common_AnnDynamicallyProvisioned value Hp) as [-> _].
    reflexivity.
Qed.

(** ** Multi-attach *)

Lemma someSharedMode_true (accessModes : list accessmodes.PersistentVolumeAccessMode) :
  someSharedMode accessModes = true
  ↔ ∃ accessMode, accessMode ∈ accessModes
                  ∧ (accessMode = accessmodes.ReadWriteMany
                     ∨ accessMode = accessmodes.ReadOnlyMany).
Proof.
  induction accessModes as [|m rest IH]; simpl.
  - split; [discriminate|]. intros (? & Hin & _). now apply elem_of_nil in Hin.
  - destruct (String.eqb_spec m accessmodes.ReadWriteMany) as [->|Hrw]; simpl.
    { split; [|reflexivity]. intros _. eexists. split; [apply list_elem_of_here | now left]. }
    destruct (String.eqb_spec m accessmodes.ReadOnlyMany) as [->|Hro].
    { split; [|reflexivity]. intros _. eexists. split; [apply list_elem_of_here | now right]. }
    rewrite IH. split.
    + intros (a & Hin & Ha). exists a. split; [now apply list_elem_of_further | done].
    + intros (a & Hin & Ha). apply elem_of_cons in Hin as [->|Hin].
      * destruct Ha; contradiction.
      * eauto.
Qed.

(** X5: [IsMultiAttachAllowed] returns true exactly for a non-nil volume
    one of whose access modes is ReadWriteMany or ReadOnlyMany; it returns
    false for a nil volume and for a volume without access modes, and the
    order of the access modes does not matter. *)
Theorem IsMultiAttachAllowed_iff (pv : option accessmodes.PersistentVolume) :
  (IsMultiAttachAllowed pv = true
   ↔ ∃ v accessMode,
       pv = Some v
       ∧ accessMode ∈ accessmodes.Spec_AccessModes v
       ∧ (accessMode = accessmodes.ReadWriteMany
          ∨ accessMode = accessmodes.ReadOnlyMany))
  ∧ IsMultiAttachAllowed None = false
  ∧ (∀ v, accessmodes.Spec_AccessModes v = [] → IsMultiAttachAllowed (Some v) = false)
  ∧ (∀ v v', accessmodes.Spec_AccessModes v ≡ₚ accessmodes.Spec_AccessModes v' →
             IsMultiAttachAllowed (Some v) = IsMultiAttachAllowed (Some v')).
Proof.
  assert (Hiff : ∀ pv, IsMultiAttachAllowed pv = true
            ↔ ∃ v accessMode,
                pv = Some v
                ∧ accessMode ∈ accessmodes.Spec_AccessModes v
                ∧ (accessMode = accessmodes.ReadWriteMany
                   ∨ accessMode = accessmodes.ReadOnlyMany)).
  { intros [v|]; simpl.
    - destruct (accessmodes.Spec_AccessModes v) as [|m rest] eqn:Em.
      + simpl. split; [discriminate|].
        intros (v' & a & [= <-] & Hin & _). rewrite Em in Hin.
        now apply elem_of_nil in Hin.
      + change (Nat.eqb (length (m :: rest)) 0) with false. cbv iota.
        rewrite someSharedMode_true. split.
        * intros (a & Hin & Ha). exists v, a. now rewrite Em.
        * intros (v' & a & [= <-] & Hin & Ha). rewrite Em in Hin. eauto.
    - split; [discriminate|]. now intros (? & ? & ? & _). }
  split; [apply Hiff|]. split; [reflexivity|]. split.
  - intros v Hv. simpl. now rewrite Hv.
  - intros v v' Hperm.
    destruct (IsMultiAttachAllowed (Some v)) eqn:E1,
             (IsMultiAttachAllowed (Some v')) eqn:E2; try reflexivity.
    + apply Hiff in E1 as (w & a & [= <-] & Hin & Ha).
      rewrite Hperm in Hin. rewrite <- E2. symmetry. apply Hiff. eauto.
    + apply Hiff in E2 as (w & a & [= <-] & Hin & Ha).
      rewrite <- Hperm in Hin. rewrite <- E1. apply Hiff. eauto.
Qed.

(** ** Keys of claims *)

(** X6: [getPVCKey] never returns a key together with an error.  For a
    tombstone that wraps a non-nil object the key is computed from the
    wrapped object: the tombstone's own key plays no part, and the outcome
    is that of [getPVCKey] on the wrapped object when that is a plain
    value.  Only one level is unwrapped, and a tombstone that wraps nil is
    handed to the key function as it is. *)
Theorem getPVCKey_tombstone {A : Type} `{!cache.KeyFunc A} :
  (∀ (obj : cache.Object A) objKey err log,
     getPVCKey obj = ((objKey, Some err), log) → objKey = "")
  ∧ (∀ key (a : A),
       getPVCKey (cache.DeletedFinalStateUnknown key (cache.Value a))
       = getPVCKey (cache.Value a))
  ∧ (∀ key key' (obj : cache.Object A),
       obj ≠ cache.Nil →
       getPVCKey (cache.DeletedFinalStateUnknown key obj)
       = getPVCKey (cache.DeletedFinalStateUnknown key' obj))
  ∧ (∀ key key' (obj : cache.Object A),
       (getPVCKey (cache.DeletedFinalStateUnknown key
                     (cache.DeletedFinalStateUnknown key' obj))).1
       = match cache.DeletionHandlingMetaNamespaceKeyFunc
                 (cache.DeletedFinalStateUnknown key' obj) with
         | (_, Some err) => ("", Some err)
         | (objKey, None) => (objKey, None)
         end)
  ∧ (∀ key,
       (getPVCKey (cache.DeletedFinalStateUnknown key (@cache.Nil A))).1
       = match cache.DeletionHandlingMetaNamespaceKeyFunc
                 (cache.DeletedFinalStateUnknown key (@cache.Nil A)) with
         | (_, Some err) => ("", Some err)
         | (objKey, None) => (objKey, None)
         end).
Proof.
  repeat split.
  - intros obj objKey err log. unfold getPVCKey.
    destruct (cache.DeletionHandlingMetaNamespaceKeyFunc _) as [k [e|]]; now intros [= <- _ _].
  - intros key key' [|k o|a] Hne; [now destruct Hne | reflexivity | reflexivity].
  - intros key key' obj. unfold getPVCKey. simpl.
    now destruct (cache.DeletionHandlingMetaNamespaceKeyFunc _) as [k [e|]].
  - intros key. unfold getPVCKey. simpl.
    now destruct (cache.DeletionHandlingMetaNamespaceKeyFunc _) as [k [e|]].
Qed.

(** ** The two discoveries of volumes side by side *)

(** Both discoveries as filters of the lister's list. *)
Lemma discoveries_as_filters (metadataSyncer : metadataSyncInformer) allPVs :
  pvLister_List metadataSyncer = Ok allPVs →
  getPVsInBoundAvailableOrReleased metadataSyncer
  = (filter (λ pv, driverOwned metadataSyncer pv ∧ boundAvailableOrReleased pv) allPVs,
     None)
  ∧ getBoundPVs metadataSyncer
    = (filter (λ pv, v1.Driver <$> v1.pv_Spec_CSI pv = Some csitypes_Name
                     ∧ v1.pv_Status_Phase pv = v1.VolumeBound) allPVs,
       None).
Proof.
  intros Hl. unfold getPVsInBoundAvailableOrReleased, getBoundPVs. rewrite Hl. split.
  - rewrite (foldl_append_filter
               (λ pv, driverOwned metadataSyncer pv ∧ boundAvailableOrReleased pv));
      [reflexivity|].
    intros acc pv.
    pose proof (ownership_test metadataSyncer pv) as Ho.
    pose proof (phase_test pv) as Hp.
    destruct (decide _) as [[Hd Hb]|Hn].
    + apply Ho in Hd. apply Hp in Hb. now rewrite Hd, Hb.
    + destruct (hasCSIDriver pv || _) eqn:E1; [|reflexivity].
      destruct (String.eqb (v1.pv_Status_Phase pv) v1.VolumeBound || _ || _) eqn:E2;
        [|reflexivity].
      destruct Hn. split; [now apply Ho | now apply Hp].
  - rewrite (foldl_append_filter
               (λ pv, v1.Driver <$> v1.pv_Spec_CSI pv = Some csitypes_Name
                      ∧ v1.pv_Status_Phase pv = v1.VolumeBound));
      [reflexivity|].
    intros acc pv.
    pose proof (hasCSIDriver_true pv) as Hc.
    pose proof (String.eqb_eq (v1.pv_Status_Phase pv) v1.VolumeBound) as Hb.
    destruct (decide _) as [[Hd Hp]|Hn].
    + apply Hc in Hd. apply Hb in Hp. now rewrite Hd, Hp.
    + destruct (hasCSIDriver pv); [|reflexivity].
      destruct (String.eqb _ _); [|reflexivity].
      destruct Hn. split; [now apply Hc | now apply Hb].
Qed.

(** X7: each discovery returns a sublist of what the lister holds: volumes
    are neither invented, repeated nor reordered, so a lister without
    duplicates gives results without duplicates, never longer than the
    lister's list. *)
Theorem discoveries_sublist (metadataSyncer : metadataSyncInformer) allPVs :
  pvLister_List metadataSyncer = Ok allPVs →
  (getPVsInBoundAvailableOrReleased metadataSyncer).1 `sublist_of` allPVs
  ∧ (getBoundPVs metadataSyncer).1 `sublist_of` allPVs
  ∧ (NoDup allPVs →
     NoDup (getPVsInBoundAvailableOrReleased metadataSyncer).1
     ∧ NoDup (getBoundPVs metadataSyncer).1)
  ∧ length (getPVsInBoundAvailableOrReleased metadataSyncer).1 ≤ length allPVs
  ∧ length (getBoundPVs metadataSyncer).1 ≤ length allPVs.
Proof.
  intros Hl. destruct (discoveries_as_filters metadataSyncer allPVs Hl) as [-> ->].
  simpl.
  assert (S1 := sublist_filter
                  (λ pv, driverOwned metadataSyncer pv ∧ boundAvailableOrReleased pv) allPVs).
  assert (S2 := sublist_filter
                  (λ pv, v1.Driver <$> v1.pv_Spec_CSI pv = Some csitypes_Name
                         ∧ v1.pv_Status_Phase pv = v1.VolumeBound) allPVs).
  repeat split; try done.
  - now apply (sublist_NoDup _ allPVs).
  - now apply (sublist_NoDup _ allPVs).
  - now apply sublist_length.
  - now apply sublist_length.
Qed.

(** X8: the bound-only discovery is contained in the phase-filtered one:
    on the same informer [getBoundPVs] returns exactly the volumes of
    [getPVsInBoundAvailableOrReleased] that are Bound and carry this
    plugin's CSI driver, in the same order.  With the migration feature
    disabled these are simply its Bound volumes. *)
Theorem getBoundPVs_within_phase_filtered (metadataSyncer : metadataSyncInformer) allPVs :
  pvLister_List metadataSyncer = Ok allPVs →
  (getBoundPVs metadataSyncer).1
  = filter (λ pv, v1.Driver <$> v1.pv_Spec_CSI pv = Some csitypes_Name
                  ∧ v1.pv_Status_Phase pv = v1.VolumeBound)
           (getPVsInBoundAvailableOrReleased metadataSyncer).1
  ∧ (getBoundPVs metadataSyncer).1
    `sublist_of` (getPVsInBoundAvailableOrReleased metadataSyncer).1
  ∧ (coCommonInterface_IsFSSEnabled metadataSyncer common_CSIMigration = false →
     (getBoundPVs metadataSyncer).1
     = filter (λ pv, v1.pv_Status_Phase pv = v1.VolumeBound)
              (getPVsInBoundAvailableOrReleased metadataSyncer).1).
Proof.
  intros Hl. destruct (discoveries_as_filters metadataSyncer allPVs Hl) as [-> ->].
  simpl.
  assert (E : filter (λ pv, v1.Driver <$> v1.pv_Spec_CSI pv = Some csitypes_Name
                            ∧ v1.pv_Status_Phase pv = v1.VolumeBound) allPVs
              = filter (λ pv, v1.Driver <$> v1.pv_Spec_CSI pv = Some csitypes_Name
                              ∧ v1.pv_Status_Phase pv = v1.VolumeBound)
                  (filter (λ pv, driverOwned metadataSyncer pv
                                 ∧ boundAvailableOrReleased pv) allPVs)).
  { symmetry. apply list_filter_filter_l. intros pv [Hd Hb]. split; [now left | now left]. }
  split; [exact E|]. split.
  - rewrite E. apply sublist_filter.
  - intros Hoff. rewrite list_filter_filter. apply list_filter_iff. intros pv.
    unfold driverOwned, boundAvailableOrReleased. rewrite Hoff. split.
    + intros [Hd Hb]. auto.
    + intros [Hb [[Hd|[? _]] _]]; [done | discriminate].
Qed.

(** ** What [IsValidVolume] returns *)


(** X10: once the claim and the volume are found, [IsValidVolume] returns
    true exactly when either the migration feature is enabled and the
    volume carries this plugin's CSI driver or a legacy vSphere source, or
    the migration feature is disabled and the volume has no legacy vSphere
    source.  The annotations of the volume are not consulted. *)
Theorem IsValidVolume_verdict volume pod metadataSyncer claim pvc pv :
  v1.vol_PersistentVolumeClaim volume = Some claim →
  pvcLister_Get metadataSyncer (metav1.Namespace (v1.pod_ObjectMeta pod))
                (v1.ClaimName claim) = Ok pvc →
  pvLister_Get metadataSyncer (v1.pvc_Spec_VolumeName pvc) = Ok pv →
  ∃ valid pv' pvc' log,
    IsValidVolume volume pod metadataSyncer = Some ((valid, pv', pvc'), log)
    ∧ (valid = true
       ↔ (coCommonInterface_IsFSSEnabled metadataSyncer common_CSIMigration = true
          ∧ (v1.Driver <$> v1.pv_Spec_CSI pv = Some csitypes_Name
             ∨ is_Some (v1.pv_Spec_VsphereVolume pv)))
         ∨ (coCommonInterface_IsFSSEnabled metadataSyncer common_CSIMigration = false
            ∧ v1.pv_Spec_VsphereVolume pv = None)).
Proof.
  intros Hv Hpvc Hpv.
  destruct (IsValidVolume_decision volume pod metadataSyncer claim pvc pv Hv Hpvc Hpv)
    as (log & ->).
  pose proof (hasCSIDriver_true pv) as Hc.
  pose proof (hasVsphereVolume_true pv) as Hl.
  assert (Hn : hasVsphereVolume pv = false ↔ v1.pv_Spec_VsphereVolume pv = None).
  { unfold hasVsphereVolume. destruct (v1.pv_Spec_VsphereVolume pv); split; done. }
  destruct (coCommonInterface_IsFSSEnabled metadataSyncer common_CSIMigration).
  - destruct (hasCSIDriver pv) eqn:E1; simpl.
    + do 4 eexists. split; [reflexivity|]. split; [|reflexivity].
      intros _. left. split; [reflexivity|]. left. now apply Hc.
    + destruct (hasVsphereVolume pv) eqn:E2; simpl.
      * do 4 eexists. split; [reflexivity|]. split; [|reflexivity].
        intros _. left. split; [reflexivity|]. right. now apply Hl.
      * do 4 eexists. split; [reflexivity|]. split; [discriminate|].
        intros [[_ [Hd|Hs]]|[? _]]; [| |discriminate].
        -- apply Hc in Hd. discriminate.
        -- apply Hl in Hs. discriminate.
  - destruct (hasVsphereVolume pv) eqn:E2; simpl.
    + do 4 eexists. split; [reflexivity|]. split; [discriminate|].
      intros [[? _]|[_ Hnone]]; [discriminate|]. apply Hn in Hnone. discriminate.
    + do 4 eexists. split; [reflexivity|]. split; [|reflexivity].
      intros _. right. split; [reflexivity | now apply Hn].
Qed.

(** X11: once the claim and the volume are found, [IsValidVolume] logs a
    warning exactly when the migration feature is disabled and the volume
    has a legacy vSphere source; the volume is then rejected. *)
Theorem IsValidVolume_warning volume pod metadataSyncer claim pvc pv :
  v1.vol_PersistentVolumeClaim volume = Some claim →
  pvcLister_Get metadataSyncer (metav1.Namespace (v1.pod_ObjectMeta pod))
                (v1.ClaimName claim) = Ok pvc →
  pvLister_Get metadataSyncer (v1.pvc_Spec_VolumeName pvc) = Ok pv →
  ∃ result log,
    IsValidVolume volume pod metadataSyncer = Some (result, log)
    ∧ ((∃ line, line ∈ log ∧ logger.level line = logger.Warn)
       ↔ coCommonInterface_IsFSSEnabled metadataSyncer common_CSIMigration = false
         ∧ is_Some (v1.pv_Spec_VsphereVolume pv))
    ∧ ((∃ line, line ∈ log ∧ logger.level line = logger.Warn) →
       result = (false, None, None)).
Proof.
  intros Hv Hpvc Hpv.
  pose proof (hasVsphereVolume_true pv) as Hl.
  assert (Hnone : ∀ log : list logger.Entry,
            log = [] ∨ log = [logger.Debugf "Pod %s does not have a valid vSphereVolume. Ignoring the pod update"] →
            ¬ ∃ line, line ∈ log ∧ logger.level line = logger.Warn).
  { intros log [->| ->] (line & Hin & Hw).
    - now apply elem_of_nil in Hin.
    - apply list_elem_of_singleton in Hin as ->. discriminate Hw. }
  unfold IsValidVolume. rewrite Hv, Hpvc, Hpv.
  destruct (coCommonInterface_IsFSSEnabled metadataSyncer common_CSIMigration).
  - (* enabled: no warning on any path *)
    destruct (hasCSIDriver pv), (hasVsphereVolume pv); simpl;
      do 2 eexists; (split; [reflexivity|]);
      (split; [split; [intros Hw; exfalso; first [exact (Hnone _ (or_introl eq_refl) Hw) | exact (Hnone _ (or_intror eq_refl) Hw)]
                      | intros [? _]; discriminate]
              | intros Hw; exfalso; first [exact (Hnone _ (or_introl eq_refl) Hw) | exact (Hnone _ (or_intror eq_refl) Hw)]]).
  - destruct (hasVsphereVolume pv) eqn:El.
    + (* disabled, legacy source: the warning *)
      destruct (hasCSIDriver pv); simpl;
        do 2 eexists; (split; [reflexivity|]);
        (split; [|reflexivity]);
        (split; [intros _; split; [reflexivity | now apply Hl]
                | intros _; eexists; split; [apply list_elem_of_here | reflexivity]]).
    + (* disabled, no legacy source: accepted silently *)
      destruct (hasCSIDriver pv); simpl;
        do 2 eexists; (split; [reflexivity|]);
        (split; [split; [intros Hw; exfalso; first [exact (Hnone _ (or_introl eq_refl) Hw) | exact (Hnone _ (or_intror eq_refl) Hw)]
                        | intros [_ Hs]; apply Hl in Hs; discriminate]
                | intros Hw; exfalso; first [exact (Hnone _ (or_introl eq_refl) Hw) | exact (Hnone _ (or_intror eq_refl) Hw)]]).
Qed.

(** X17: the two paths agree on the volumes the phase-filtered discovery
    owns: once the claim and the volume are found, a volume that passes the
    ownership test of [getPVsInBoundAvailableOrReleased] is accepted by
    [IsValidVolume], unless the migration feature is disabled and the
    volume has a legacy vSphere source. *)
Theorem IsValidVolume_accepts_owned volume pod metadataSyncer claim pvc pv :
  v1.vol_PersistentVolumeClaim volume = Some claim →
  pvcLister_Get metadataSyncer (metav1.Namespace (v1.pod_ObjectMeta pod))
                (v1.ClaimName claim) = Ok pvc →
  pvLister_Get metadataSyncer (v1.pvc_Spec_VolumeName pvc) = Ok pv →
  driverOwned metadataSyncer pv →
  coCommonInterface_IsFSSEnabled metadataSyncer common_CSIMigration = true
  ∨ v1.pv_Spec_VsphereVolume pv = None →
  IsValidVolume volume pod metadataSyncer = Some ((true, Some pv, Some pvc), []).
Proof.
  intros Hv Hpvc Hpv Hown Hok.
  pose proof (hasCSIDriver_true pv) as Hc.
  pose proof (hasVsphereVolume_true pv) as Hl.
  unfold IsValidVolume. rewrite Hv, Hpvc, Hpv.
  destruct (coCommonInterface_IsFSSEnabled metadataSyncer common_CSIMigration) eqn:Ef.
  - destruct Hown as [Hd|(_ & Hs & _)].
    + apply Hc in Hd. now rewrite Hd.
    + apply Hl in Hs. rewrite Hs. now destruct (hasCSIDriver pv).
  - destruct Hok as [?|Hnone]; [discriminate|].
    unfold hasVsphereVolume. rewrite Hnone. simpl.
    now destruct (negb (hasCSIDriver pv)).
Qed.

(** ** Passes over the inline volumes of pods *)

Section inline_passes.
Context {S : Type} `{!migration.VolumeMigrationService S}.

Lemma resolutions_app svc (refs1 refs2 : list v1.VsphereVirtualDiskVolumeSource) :
  resolutions svc (refs1 ++ refs2)
  = resolutions svc refs1 ++ resolutions (serviceAfter svc refs1) refs2
  ∧ serviceAfter svc (refs1 ++ refs2) = serviceAfter (serviceAfter svc refs1) refs2.
Proof.
  revert svc. induction refs1 as [|ref refs1 IH]; intros svc; [done|].
  cbn [app resolutions serviceAfter].
  destruct (migration.GetVolumeID svc _) as [svc' r]. cbn [fst].
  destruct (IH svc') as [-> ->]. done.
Qed.

Lemma inlineReferences_app (pods1 pods2 : list v1.Pod) :
  inlineReferences (pods1 ++ pods2) = inlineReferences pods1 ++ inlineReferences pods2.
Proof. unfold inlineReferences. now rewrite fmap_app, concat_app, omap_app. Qed.

(** What was recorded before is kept unless a later success overwrites it. *)
Lemma recorded_union answers (m : gmap string string) :
  recorded answers m = recorded answers ∅ ∪ m.
Proof.
  revert m. induction answers as [|[ref [id|e]] answers IH]; intros m.
  - unfold recorded. simpl. now rewrite (left_id_L ∅ (∪)).
  - rewrite !recorded_cons. cbn [fst snd].
    rewrite (IH (<[id:=v1.VolumePath ref]> m)), (IH (<[id:=v1.VolumePath ref]> ∅)).
    rewrite <- (assoc_L (∪)). f_equal.
    now rewrite <- insert_union_l, (left_id_L ∅ (∪)).
  - rewrite !recorded_cons. cbn [fst snd]. apply IH.
Qed.

(** A pass with the feature on, over an informer that lists [allPods]. *)
Lemma inline_pass_enabled metadataSyncer (allPods : list v1.Pod) svc :
  podLister_List metadataSyncer = Ok allPods →
  fullSyncGetInlineMigratedVolumesInfo metadataSyncer true svc
  = (serviceAfter svc (inlineReferences allPods),
     (recorded (resolutions svc (inlineReferences allPods)) ∅, None),
     replicate (length (List.filter isFailure (resolutions svc (inlineReferences allPods))))
               resolutionWarning).
Proof.
  intros Hl. unfold fullSyncGetInlineMigratedVolumesInfo. rewrite Hl.
  now rewrite scan_pods_flat, scan_volumes_enabled.
Qed.

(** X12: a pass over two groups of pods is the pass over the first group
    followed by the pass over the second, started with the migration
    service as the first pass left it: the log is the two logs in order,
    and the map is the union of the two maps in which, for an ID resolved in
    both passes, the path recorded by the second pass wins. *)
Theorem fullSyncGetInlineMigratedVolumesInfo_app
    metadataSyncer (pods1 pods2 : list v1.Pod) svc svc1 svc2
    (inlineVolumes1 inlineVolumes2 : gmap string string) err1 err2 log1 log2 :
  fullSyncGetInlineMigratedVolumesInfo (withPods metadataSyncer pods1) true svc
  = (svc1, (inlineVolumes1, err1), log1) →
  fullSyncGetInlineMigratedVolumesInfo (withPods metadataSyncer pods2) true svc1
  = (svc2, (inlineVolumes2, err2), log2) →
  fullSyncGetInlineMigratedVolumesInfo (withPods metadataSyncer (pods1 ++ pods2)) true svc
  = (svc2, (inlineVolumes2 ∪ inlineVolumes1, None), log1 ++ log2)
  ∧ err1 = None ∧ err2 = None.
Proof.
  rewrite (inline_pass_enabled (withPods metadataSyncer pods1) pods1 svc eq_refl).
  intros [= <- <- <- <-].
  rewrite (inline_pass_enabled (withPods metadataSyncer pods2) pods2 _ eq_refl).
  intros [= <- <- <- <-].
  rewrite (inline_pass_enabled (withPods metadataSyncer (pods1 ++ pods2))
             (pods1 ++ pods2) svc eq_refl).
  rewrite inlineReferences_app.
  destruct (resolutions_app svc (inlineReferences pods1) (inlineReferences pods2))
    as [-> ->].
  rewrite recorded_app, List.filter_app, length_app, replicate_add.
  now rewrite (recorded_union _ (recorded _ ∅)).
Qed.

(** X13: volumes without a legacy vSphere source (claim-backed volumes, for
    instance) are never submitted to the migration service: when no volume
    of any pod has such a source the pass returns the empty map, logs
    nothing and leaves the service untouched, whatever the flag. *)
Theorem fullSyncGetInlineMigratedVolumesInfo_no_inline
    metadataSyncer (allPods : list v1.Pod) (migrationFeatureState : bool) svc :
  podLister_List metadataSyncer = Ok allPods →
  (∀ pod volume, pod ∈ allPods → volume ∈ v1.pod_Spec_Volumes pod →
                 v1.vol_VsphereVolume volume = None) →
  fullSyncGetInlineMigratedVolumesInfo metadataSyncer migrationFeatureState svc
  = (svc, (∅, None), []).
Proof.
  intros Hl Hnone. destruct migrationFeatureState.
  - rewrite (inline_pass_enabled metadataSyncer allPods svc Hl).
    assert (E : inlineReferences allPods = []).
    { unfold inlineReferences.
      assert (Hall : ∀ volume, volume ∈ concat (v1.pod_Spec_Volumes <$> allPods) →
                               v1.vol_VsphereVolume volume = None).
      { intros volume Hin. apply list_elem_of_In, in_concat in Hin as (vols & Hvols & Hv).
        apply list_elem_of_In, list_elem_of_fmap in Hvols as (pod & -> & Hpod).
        apply list_elem_of_In in Hv. eauto. }
      induction (concat (v1.pod_Spec_Volumes <$> allPods)) as [|v vols IH]; [done|].
      cbn [omap list_omap]. rewrite (Hall v) by apply list_elem_of_here.
      apply IH. intros volume Hin. apply Hall. now apply list_elem_of_further. }
    now rewrite E.
  - unfold fullSyncGetInlineMigratedVolumesInfo. rewrite Hl. now rewrite scan_disabled.
Qed.

End inline_passes.

(** ** Runs of the paginated query *)

Section query_runs.
Context {B : Type} `{!volumes.Manager B}.

(** An iteration that goes round again has received a page whose cursor has
    not reached its total; the page is appended and its cursor becomes the
    cursor of the filter, whose other fields stay. *)
Lemma loopBody_next (st st1 : QueryLoop) :
  loopBody st = Next st1 →
  ∃ queryResult,
    calls st1 = calls st ++ [queryFilter st]
    ∧ allQueryResults st1 = allQueryResults st ++ [queryResult]
    ∧ cnstypes.filter_Cursor (queryFilter st1) = Some (cnstypes.Cursor queryResult)
    ∧ cnstypes.VolumeIds (queryFilter st1) = cnstypes.VolumeIds (queryFilter st)
    ∧ cnstypes.ContainerClusterIds (queryFilter st1)
      = cnstypes.ContainerClusterIds (queryFilter st)
    ∧ cnstypes.Offset (cnstypes.Cursor queryResult)
      ≠ cnstypes.TotalRecords (cnstypes.Cursor queryResult).
Proof.
  unfold loopBody.
  destruct (volumes.QueryVolume (volumeManager st) (queryFilter st))
    as [b' [[queryResult|] [err|]]]; try discriminate.
  destruct (Z.eqb_spec (cnstypes.Offset (cnstypes.Cursor queryResult))
                       (cnstypes.TotalRecords (cnstypes.Cursor queryResult)));
    [discriminate|].
  intros [= <-]. exists queryResult. simpl. done.
Qed.

(** An iteration that returns has received an error, a nil result, or a
    page whose cursor has reached its total. *)
Lemma loopBody_return (st st' : QueryLoop) ret :
  loopBody st = Return st' ret →
  calls st' = calls st ++ [queryFilter st]
  ∧ ((∃ err, ret = ([], Some err) ∧ allQueryResults st' = allQueryResults st)
     ∨ (ret = (allQueryResults st, None) ∧ allQueryResults st' = allQueryResults st)
     ∨ (∃ queryResult,
          ret = (allQueryResults st ++ [queryResult], None)
          ∧ allQueryResults st' = allQueryResults st ++ [queryResult]
          ∧ cnstypes.Offset (cnstypes.Cursor queryResult)
            = cnstypes.TotalRecords (cnstypes.Cursor queryResult))).
Proof.
  unfold loopBody.
  destruct (volumes.QueryVolume (volumeManager st) (queryFilter st))
    as [b' [[queryResult|] [err|]]].
  - intros [= <- <-]. simpl. eauto.
  - destruct (Z.eqb_spec (cnstypes.Offset (cnstypes.Cursor queryResult))
                         (cnstypes.TotalRecords (cnstypes.Cursor queryResult)));
      [|discriminate].
    intros [= <- <-]. simpl. split; [done|]. right. right. eauto.
  - intros [= <- <-]. simpl. eauto.
  - intros [= <- <-]. simpl. eauto.
Qed.

(** A run that returns has left the loop at some iteration. *)
Lemma queryLoop_returns (fuel : nat) (st st' : QueryLoop) ret :
  queryLoop fuel st = Some (st', ret) →
  ∃ n stn, iteration n st = Some stn ∧ loopBody stn = Return st' ret.
Proof.
  revert st. induction fuel as [|fuel IH]; intros st Hq; [discriminate|].
  simpl in Hq. destruct (loopBody st) as [st1|st1 ret1] eqn:Hb.
  - destruct (IH st1 Hq) as (n & stn & Hn & Hr).
    exists (Datatypes.S n), stn. split; [|done]. simpl. now rewrite Hb.
  - injection Hq as <- <-. exists 0, st. done.
Qed.

(** What holds whenever an iteration starts, in a run entered without
    pages and calls: the filter keeps its volume IDs and cluster scope, the
    cursors sent so far and the pending one are the initial cursor followed
    by the cursors of the pages gathered, and no gathered page has reached
    its total. *)
Lemma iteration_invariant (n : nat) (st stn : QueryLoop) :
  allQueryResults st = [] → calls st = [] →
  iteration n st = Some stn →
  Forall (λ f, cnstypes.VolumeIds f = cnstypes.VolumeIds (queryFilter st)
               ∧ cnstypes.ContainerClusterIds f
                 = cnstypes.ContainerClusterIds (queryFilter st))
         (calls stn ++ [queryFilter stn])
  ∧ cnstypes.filter_Cursor <$> (calls stn ++ [queryFilter stn])
    = cnstypes.filter_Cursor (queryFilter st)
      :: ((λ p, Some (cnstypes.Cursor p)) <$> allQueryResults stn)
  ∧ Forall (λ p, cnstypes.Offset (cnstypes.Cursor p)
                 ≠ cnstypes.TotalRecords (cnstypes.Cursor p))
           (allQueryResults stn)
  ∧ length (calls stn) = length (allQueryResults stn).
Proof.
  intros Hall Hcalls. revert stn. induction n as [|n IH]; intros stn Hn.
  - injection Hn as <-. rewrite Hall, Hcalls. simpl. repeat split; auto.
  - rewrite iteration_succ in Hn.
    destruct (iteration n st) as [stp|] eqn:En; [|discriminate].
    destruct (IH stp eq_refl) as (Hf & Hc & Ho & Hlen).
    destruct (loopBody stp) as [st1|] eqn:Hb; [|discriminate].
    injection Hn as ->.
    destruct (loopBody_next stp stn Hb) as (p & Hk & Ha & Hcur & Hv & Hcc & Hne).
    rewrite Hk, Ha. repeat split.
    + apply Forall_app. split; [exact Hf|]. apply Forall_singleton.
      apply Forall_app in Hf as [_ Hlast]. apply Forall_singleton in Hlast as [Hv' Hcc'].
      split; congruence.
    + rewrite fmap_app, Hc, fmap_app. simpl. now rewrite Hcur.
    + apply Forall_app. split; [exact Ho|]. now apply Forall_singleton.
    + rewrite !length_app. simpl. lia.
Qed.

(** X14: every call that [fullSyncGetQueryResults] makes carries the
    volume IDs it was given and the cluster scope (the cluster ID alone, or
    no cluster when the ID is empty); at least one call is made. *)
Theorem fullSyncGetQueryResults_scope
    (fuel : nat) volumeIds clusterID (b : B) (st' : QueryLoop) ret :
  fullSyncGetQueryResults fuel volumeIds clusterID b = Some (st', ret) →
  calls st' ≠ []
  ∧ Forall (λ f, cnstypes.VolumeIds f = volumeIds
                 ∧ cnstypes.ContainerClusterIds f
                   = if String.eqb clusterID "" then [] else [clusterID])
           (calls st').
Proof.
  unfold fullSyncGetQueryResults. intros Hq.
  destruct (queryLoop_returns _ _ _ _ Hq) as (n & stn & Hn & Hr).
  destruct (initialQuery_start volumeIds clusterID b) as (_ & _ & Hall & Hcalls & _).
  destruct (iteration_invariant n _ stn Hall Hcalls Hn) as (Hf & _).
  destruct (loopBody_return stn st' ret Hr) as [-> _].
  split; [now destruct (calls stn)|].
  eapply Forall_impl; [exact Hf|]. intros f [-> ->].
  unfold initialQuery. simpl. now destruct (String.eqb clusterID "").
Qed.

(** X15: the cursor is threaded through the calls: the first call carries
    the cursor at offset 0 with the page-size limit, and every later call
    carries the cursor that the page before it returned. *)
Theorem fullSyncGetQueryResults_cursor_chain
    (fuel : nat) volumeIds clusterID (b : B) (st' : QueryLoop) ret :
  fullSyncGetQueryResults fuel volumeIds clusterID b = Some (st', ret) →
  (∃ first, calls st' !! 0 = Some first
            ∧ cnstypes.filter_Cursor first
              = Some {| cnstypes.Offset := 0;
                        cnstypes.Limit := queryVolumeLimit;
                        cnstypes.TotalRecords := 0 |})
  ∧ (∀ i next, calls st' !! Datatypes.S i = Some next →
       ∃ queryResult,
         allQueryResults st' !! i = Some queryResult
         ∧ cnstypes.filter_Cursor next = Some (cnstypes.Cursor queryResult)).
Proof.
  unfold fullSyncGetQueryResults. intros Hq.
  destruct (queryLoop_returns _ _ _ _ Hq) as (n & stn & Hn & Hr).
  destruct (initialQuery_start volumeIds clusterID b) as (Hcur & _ & Hall & Hcalls & _).
  destruct (iteration_invariant n _ stn Hall Hcalls Hn) as (_ & Hc & _ & Hlen).
  destruct (loopBody_return stn st' ret Hr) as [Hk Hcase].
  rewrite Hcur, <- Hk in Hc.
  assert (Hpages : ∀ i p, allQueryResults stn !! i = Some p →
                          allQueryResults st' !! i = Some p).
  { intros i p Hl.
    destruct Hcase as [(e & _ & ->)|[[_ ->]|(q & _ & -> & _)]]; try done.
    now apply lookup_app_l_Some. }
  split.
  - apply (f_equal (λ l, l !! 0)) in Hc. rewrite list_lookup_fmap in Hc. simpl in Hc.
    destruct (calls st' !! 0) as [first|]; [|discriminate].
    exists first. split; [done|]. now injection Hc.
  - intros i next Hnext.
    apply (f_equal (λ l, l !! Datatypes.S i)) in Hc.
    rewrite list_lookup_fmap, Hnext in Hc. simpl in Hc.
    rewrite list_lookup_fmap in Hc.
    destruct (allQueryResults stn !! i) as [p|] eqn:Ep; [|discriminate].
    exists p. split; [now apply Hpages|]. now injection Hc.
Qed.

(** X16: the shape of every result.  With an error the returned slice is
    nil.  With a nil error the returned pages are those gathered; no page
    but the last has a cursor that reached its total; and the number of
    calls is the number of pages when the last page's cursor reached its
    total, and one more otherwise (the run then ended on a nil result). *)
Theorem fullSyncGetQueryResults_result_shape
    (fuel : nat) volumeIds clusterID (b : B) (st' : QueryLoop) pages err :
  fullSyncGetQueryResults fuel volumeIds clusterID b = Some (st', (pages, err)) →
  (err ≠ None → pages = [])
  ∧ (err = None →
     pages = allQueryResults st'
     ∧ (∀ i p, pages !! i = Some p → Datatypes.S i < length pages →
               cnstypes.Offset (cnstypes.Cursor p)
               ≠ cnstypes.TotalRecords (cnstypes.Cursor p))
     ∧ ((length (calls st') = length pages
         ∧ ∃ p, last pages = Some p
                ∧ cnstypes.Offset (cnstypes.Cursor p)
                  = cnstypes.TotalRecords (cnstypes.Cursor p))
        ∨ (length (calls st') = Datatypes.S (length pages)
           ∧ ∀ p, p ∈ pages →
                  cnstypes.Offset (cnstypes.Cursor p)
                  ≠ cnstypes.TotalRecords (cnstypes.Cursor p)))).
Proof.
  unfold fullSyncGetQueryResults. intros Hq.
  destruct (queryLoop_returns _ _ _ _ Hq) as (n & stn & Hn & Hr).
  destruct (initialQuery_start volumeIds clusterID b) as (_ & _ & Hall & Hcalls & _).
  destruct (iteration_invariant n _ stn Hall Hcalls Hn) as (_ & _ & Ho & Hlen).
  destruct (loopBody_return stn st' _ Hr) as [Hk Hcase].
  rewrite Forall_forall in Ho.
  destruct Hcase as [(e & [= -> ->] & Ha)|[[[= -> ->] Ha]|(q & [= -> ->] & Ha & Hq')]].
  - split; [done|]. intros [=].
  - split; [done|]. intros _. split; [done|]. split.
    + intros i p Hl _. apply Ho. now apply list_elem_of_lookup_2 in Hl.
    + right. split; [|exact Ho]. rewrite Hk, length_app. simpl. lia.
  - split; [done|]. intros _. split; [done|]. split.
    + intros i p Hl Hlt. rewrite length_app in Hlt. simpl in Hlt.
      rewrite lookup_app_l in Hl by lia.
      apply Ho. now apply list_elem_of_lookup_2 in Hl.
    + left. split.
      * rewrite Hk, !length_app. simpl. lia.
      * exists q. split; [apply last_snoc | done].
Qed.

(** A page appended by the returning iteration is the response it got. *)
Lemma loopBody_return_page (st st' : QueryLoop) ret queryResult :
  loopBody st = Return st' ret →
  allQueryResults st' = allQueryResults st ++ [queryResult] →
  response st = (Some queryResult, None).
Proof.
  unfold loopBody, response.
  destruct (volumes.QueryVolume (volumeManager st) (queryFilter st))
    as [b' [[q|] [err|]]]; simpl.
  - intros [= <- _] Ha. simpl in Ha.
    apply (f_equal length) in Ha. rewrite length_app in Ha. simpl in Ha. lia.
  - destruct (Z.eqb _ _); [|discriminate].
    intros [= <- _] Ha. simpl in Ha. apply app_inv_head in Ha. now injection Ha as ->.
  - intros [= <- _] Ha. simpl in Ha.
    apply (f_equal length) in Ha. rewrite length_app in Ha. simpl in Ha. lia.
  - intros [= <- _] Ha. simpl in Ha.
    apply (f_equal length) in Ha. rewrite length_app in Ha. simpl in Ha. lia.
Qed.

(** X18: the pages gathered are the backend's answers, in call order: the
    page at position [i] is the non-nil, error-free result of the call of
    iteration [i]; nothing is reordered, repeated or made up. *)
Theorem fullSyncGetQueryResults_pages_are_responses
    (fuel : nat) volumeIds clusterID (b : B) (st' : QueryLoop) ret :
  fullSyncGetQueryResults fuel volumeIds clusterID b = Some (st', ret) →
  ∀ i queryResult,
    allQueryResults st' !! i = Some queryResult →
    nthResponse i (initialQuery volumeIds clusterID b) = Some (Some queryResult, None).
Proof.
  unfold fullSyncGetQueryResults. intros Hq i p Hl.
  destruct (queryLoop_returns _ _ _ _ Hq) as (n & stn & Hn & Hr).
  destruct (initialQuery_start volumeIds clusterID b) as (_ & _ & Hall & Hcalls & _).
  destruct (iteration_progress n _ stn Hn) as (_ & Hlen & _ & _ & Hpages).
  rewrite Hall in Hlen, Hpages. simpl in Hlen, Hpages.
  assert (Hearlier : i < n → allQueryResults stn !! i = Some p →
                     nthResponse i (initialQuery volumeIds clusterID b)
                     = Some (Some p, None)).
  { intros Hi Hp. destruct (Hpages i Hi) as (q & Hresp & Hq'). congruence. }
  destruct (loopBody_return stn st' ret Hr) as [_ Hcase].
  destruct Hcase as [(e & _ & Ha)|[[_ Ha]|(q & _ & Ha & _)]].
  - rewrite Ha in Hl. apply Hearlier; [|done]. apply lookup_lt_Some in Hl. lia.
  - rewrite Ha in Hl. apply Hearlier; [|done]. apply lookup_lt_Some in Hl. lia.
  - rewrite Ha in Hl. destruct (decide (i < n)) as [Hi|Hi].
    + rewrite lookup_app_l in Hl by lia. now apply Hearlier.
    + assert (i = n) as ->.
      { apply lookup_lt_Some in Hl. rewrite length_app in Hl. simpl in Hl. lia. }
      rewrite lookup_app_r in Hl by lia.
      replace (n - length (allQueryResults stn)) with 0 in Hl by lia.
      injection Hl as <-.
      unfold nthResponse. rewrite Hn. simpl. f_equal.
      now apply (loopBody_return_page stn st' ret q).
Qed.

End query_runs.

End further_properties.

(** * Further worked examples *)

(** The annotation appears between two snapshots: reported once, and not
    again from the newer snapshot on. *)
Lemma HasMigratedToAnnotationUpdate_once_witness :
  @HasMigratedToAnnotationUpdate exampleConstants
     {["pv.kubernetes.io/migrated-to" := "csi.vsphere.vmware.com"]} ∅ "pvc-1" = false
  ∧ @HasMigratedToAnnotationUpdate exampleConstants
       {["pv.kubernetes.io/migrated-to" := "csi.vsphere.vmware.com"]}
       {["pv.kubernetes.io/migrated-to" := "csi.vsphere.vmware.com"]} "pvc-1" = false.
Proof.
  destruct (@HasMigratedToAnnotationUpdate_once exampleConstants
              ∅ {["pv.kubernetes.io/migrated-to" := "csi.vsphere.vmware.com"]} "pvc-1")
    as (Hlater & Hback & _); [reflexivity|].
  split; [apply Hback | apply Hlater].
Defined.

(** An unrelated label on a migrated claim does not change its validity. *)
Lemma validity_reads_two_annotations_witness :
  @isValidvSphereVolumeClaim exampleConstants
     {| metav1.Name := "renamed"; metav1.Namespace := "other";
        metav1.Annotations :=
          partial_alter (λ _, Some "db") "app" (metav1.Annotations metaMigratedClaim) |}
  = @isValidvSphereVolumeClaim exampleConstants metaMigratedClaim.
Proof.
  apply (@validity_reads_two_annotations exampleConstants metaMigratedClaim
           "app" (Some "db") "renamed" "other"); discriminate.
Defined.

(** Both discoveries on the example informer return sublists of its
    volumes. *)
Lemma discoveries_sublist_witness :
  (@getPVsInBoundAvailableOrReleased exampleConstants (exampleSyncer true)).1
    `sublist_of` examplePVs
  ∧ (@getBoundPVs exampleConstants (exampleSyncer true)).1 `sublist_of` examplePVs.
Proof.
  destruct (@discoveries_sublist exampleConstants (exampleSyncer true) examplePVs)
    as (H1 & H2 & _); [reflexivity|].
  split; [exact H1 | exact H2].
Defined.

(** With migration disabled the bound volumes of the phase-filtered
    discovery are what [getBoundPVs] returns. *)
Lemma getBoundPVs_within_phase_filtered_witness :
  (@getBoundPVs exampleConstants (exampleSyncer false)).1
  = filter (λ pv, v1.pv_Status_Phase pv = v1.VolumeBound)
           (@getPVsInBoundAvailableOrReleased exampleConstants (exampleSyncer false)).1.
Proof.
  destruct (@getBoundPVs_within_phase_filtered exampleConstants (exampleSyncer false)
              examplePVs) as (_ & _ & Hoff); [reflexivity|].
  apply Hoff. reflexivity.
Defined.

(** The claim on the native volume is valid with migration enabled. *)
Lemma IsValidVolume_verdict_witness :
  ∃ pv pvc log,
    @IsValidVolume exampleConstants (claimedVolume "claim-native") podInline
                   (exampleSyncer true)
    = Some ((true, pv, pvc), log).
Proof.
  destruct (@IsValidVolume_verdict exampleConstants
              (claimedVolume "claim-native") podInline (exampleSyncer true)
              {| v1.ClaimName := "claim-native" |} (claimOn "claim-native" "pv-native")
              pvNative)
    as (valid & pv & pvc & log & Hr & Hiff); [reflexivity..|].
  exists pv, pvc, log. rewrite Hr. do 4 f_equal. apply Hiff.
  left. split; [reflexivity|]. left. reflexivity.
Defined.

(** The claim on the migrated legacy volume is rejected with a warning
    when migration is disabled. *)
Lemma IsValidVolume_warning_witness :
  ∃ log,
    @IsValidVolume exampleConstants (claimedVolume "claim-migrated") podInline
                   (exampleSyncer false)
    = Some ((false, None, None), log).
Proof.
  destruct (@IsValidVolume_warning exampleConstants
              (claimedVolume "claim-migrated") podInline (exampleSyncer false)
              {| v1.ClaimName := "claim-migrated" |} (claimOn "claim-migrated" "pv-migrated")
              pvMigrated)
    as (result & log & Hr & Hiff & Hrej); [reflexivity..|].
  exists log. rewrite Hr. do 2 f_equal. apply Hrej, Hiff.
  split; [reflexivity | now eexists].
Defined.

(** The pass over both example pods from the passes over each. *)
Lemma fullSyncGetInlineMigratedVolumesInfo_app_witness :
  fullSyncGetInlineMigratedVolumesInfo
    (withPods (exampleSyncer true) ([podInline] ++ [podOther])) true 0
  = (3,
     ({["vol-b" := "[ds1] kubevols/b.vmdk"]} ∪ {["vol-a" := "[ds1] kubevols/a.vmdk"]},
      None),
     [resolutionWarning] ++ []).
Proof.
  apply (fullSyncGetInlineMigratedVolumesInfo_app
           (exampleSyncer true) [podInline] [podOther] 0 2 3
           {["vol-a" := "[ds1] kubevols/a.vmdk"]} {["vol-b" := "[ds1] kubevols/b.vmdk"]}
           None None [resolutionWarning] []); reflexivity.
Defined.

(** A pod with claim-backed volumes only: nothing is resolved. *)
Lemma fullSyncGetInlineMigratedVolumesInfo_no_inline_witness :
  fullSyncGetInlineMigratedVolumesInfo (withPods (exampleSyncer true) [podClaimed]) true 0
  = (0, (∅, None), []).
Proof.
  apply (fullSyncGetInlineMigratedVolumesInfo_no_inline
           (withPods (exampleSyncer true) [podClaimed]) [podClaimed] true 0);
    [reflexivity|].
  intros pod volume Hpod Hvol.
  apply list_elem_of_singleton in Hpod as ->.
  apply list_elem_of_In in Hvol. simpl in Hvol.
  destruct Hvol as [<-|[<-|[]]]; reflexivity.
Defined.

(** The run over the catalog of five volumes: its three calls are scoped
    to the cluster. *)
Lemma fullSyncGetQueryResults_scope_witness :
  ∃ st' ret,
    @fullSyncGetQueryResults exampleConstants _ catalogManager 3 [] "cluster-1" fiveVolumes
    = Some (st', ret)
    ∧ Forall (λ f, cnstypes.VolumeIds f = []
                   ∧ cnstypes.ContainerClusterIds f = ["cluster-1"])
             (calls st').
Proof.
  destruct (@fullSyncGetQueryResults exampleConstants _ catalogManager
              3 [] "cluster-1" fiveVolumes) as [[st' ret]|] eqn:E;
    [|vm_compute in E; discriminate E].
  exists st', ret. split; [reflexivity|].
  exact (proj2 (@fullSyncGetQueryResults_scope exampleConstants _ catalogManager
                  3 [] "cluster-1" fiveVolumes st' ret E)).
Defined.

(** The same run: the second call carries the cursor of the first page. *)
Lemma fullSyncGetQueryResults_cursor_chain_witness :
  ∃ st' ret,
    @fullSyncGetQueryResults exampleConstants _ catalogManager 3 [] "cluster-1" fiveVolumes
    = Some (st', ret)
    ∧ ∀ next, calls st' !! 1 = Some next →
        ∃ queryResult, allQueryResults st' !! 0 = Some queryResult
                       ∧ cnstypes.filter_Cursor next = Some (cnstypes.Cursor queryResult).
Proof.
  destruct (@fullSyncGetQueryResults exampleConstants _ catalogManager
              3 [] "cluster-1" fiveVolumes) as [[st' ret]|] eqn:E;
    [|vm_compute in E; discriminate E].
  exists st', ret. split; [reflexivity|].
  exact (proj2 (@fullSyncGetQueryResults_cursor_chain exampleConstants _ catalogManager
                  3 [] "cluster-1" fiveVolumes st' ret E) 0).
Defined.

(** The run whose second call fails returns a nil slice. *)
Lemma fullSyncGetQueryResults_result_shape_witness :
  ∃ st' pages err,
    @fullSyncGetQueryResults exampleConstants _ scriptedManager 2 [] "" secondPageFails
    = Some (st', (pages, Some err))
    ∧ pages = [].
Proof.
  destruct (@fullSyncGetQueryResults exampleConstants _ scriptedManager
              2 [] "" secondPageFails) as [[st' [pages [err|]]]|] eqn:E;
    [ | vm_compute in E; discriminate E | vm_compute in E; discriminate E].
  exists st', pages, err. split; [reflexivity|].
  apply (proj1 (@fullSyncGetQueryResults_result_shape exampleConstants _ scriptedManager
                  2 [] "" secondPageFails st' pages (Some err) E)).
  discriminate.
Defined.

(** With migration enabled the migrated legacy volume, which the
    phase-filtered discovery owns, is accepted. *)
Lemma IsValidVolume_accepts_owned_witness :
  @IsValidVolume exampleConstants (claimedVolume "claim-migrated") podInline
                 (exampleSyncer true)
  = Some ((true, Some pvMigrated, Some (claimOn "claim-migrated" "pv-migrated")), []).
Proof.
  apply (@IsValidVolume_accepts_owned exampleConstants
           (claimedVolume "claim-migrated") podInline (exampleSyncer true)
           {| v1.ClaimName := "claim-migrated" |});
    [reflexivity | reflexivity | reflexivity | | left; reflexivity].
  right. split; [reflexivity|]. split; [now eexists | reflexivity].
Defined.

(** The second page of the run over the catalog is the answer to the
    second call. *)
Lemma fullSyncGetQueryResults_pages_are_responses_witness :
  ∃ st' ret,
    @fullSyncGetQueryResults exampleConstants _ catalogManager 3 [] "cluster-1" fiveVolumes
    = Some (st', ret)
    ∧ ∀ queryResult,
        allQueryResults st' !! 1 = Some queryResult →
        nthResponse 1 (@initialQuery exampleConstants _ [] "cluster-1" fiveVolumes)
        = Some (Some queryResult, None).
Proof.
  destruct (@fullSyncGetQueryResults exampleConstants _ catalogManager
              3 [] "cluster-1" fiveVolumes) as [[st' ret]|] eqn:E;
    [|vm_compute in E; discriminate E].
  exists st', ret. split; [reflexivity|].
  exact (@fullSyncGetQueryResults_pages_are_responses exampleConstants _ catalogManager
           3 [] "cluster-1" fiveVolumes st' ret E 1).
Defined.
